(** * amneziawg-exporter: the sampling cycle of [exporter.py]

    A shallow embedding of [AwgShowWrapper.parse], [AwgShowWrapper.run_bin],
    [Exporter.read_clients_table], [Exporter.update_metrics] and
    [Exporter.main_loop], with the parts of the Python runtime and of
    [prometheus_client] they call.

    Conventions.
    - A Python [str] is a [string]; a character is a code point below 256
      (the Latin-1 range), which is where the whitespace and line-break
      classes below are exact.
    - A Python exception is a value of [exn]; code that may raise returns
      a [result].  Only subclasses of [Exception] are modelled: they are the
      ones [except Exception] catches.
    - The gauges of the registry are finite maps from label tuples to
      values; code that mutates them threads the registry, and an exception
      leaves the mutations done so far in place, as in Python.
    - Logging is not modelled in the cycle and the loop: it changes
      neither control flow nor gauges.  The handlers that [MyLogger] attaches
      are modelled on their own, after the loop. *)

From Stdlib Require Import ZArith NArith Ascii String.
From stdpp Require Import base option list strings gmap fin_maps.

#[local] Open Scope string_scope.
#[local] Open Scope list_scope.
#[local] Open Scope nat_scope.

(** ** Exceptions and results *)

Inductive exn : Set :=
  | IndexError
  | KeyError
  | TypeError
  | ValueError
  | OSError
  | JSONDecodeError
  | UnicodeDecodeError.

Inductive result (A : Type) : Type :=
  | Ok (a : A)
  | Raise (e : exn).
Arguments Ok {A} a.
Arguments Raise {A} e.

#[export] Instance result_ret : MRet result := fun _ a => Ok a.
#[export] Instance result_bind : MBind result := fun _ _ f m =>
  match m with
  | Ok a => f a
  | Raise e => Raise e
  end.

(** ** Python strings *)

Module PyStr.

Definition code (c : ascii) : N := N_of_ascii c.

Definition code_in (c : ascii) (l : list N) : bool :=
  existsb (N.eqb (code c)) l.

(** [str.isspace] on one code point below 256: the characters that
    [str.split()] and [str.strip()] treat as whitespace. *)
Definition is_space (c : ascii) : bool :=
  code_in c [9; 10; 11; 12; 13; 28; 29; 30; 31; 32; 133; 160]%N.

(** The line boundaries of [str.splitlines] below 256; a carriage return
    followed by a line feed is one boundary. *)
Definition is_linebreak (c : ascii) : bool :=
  code_in c [10; 11; 12; 13; 28; 29; 30; 133]%N.

Definition is_cr (c : ascii) : bool := (code c =? 13)%N.
Definition is_lf (c : ascii) : bool := (code c =? 10)%N.

Definition is_empty (s : string) : bool :=
  match s with
  | EmptyString => true
  | String _ _ => false
  end.

(** [s.lstrip()], [s.rstrip()] and [s.strip()]. *)
Fixpoint lstrip (s : string) : string :=
  match s with
  | EmptyString => EmptyString
  | String c r => if is_space c then lstrip r else s
  end.

Fixpoint rstrip (s : string) : string :=
  match s with
  | EmptyString => EmptyString
  | String c r =>
      let r' := rstrip r in
      if is_space c && is_empty r' then EmptyString else String c r'
  end.

Definition strip (s : string) : string := lstrip (rstrip s).

(** Puts [c] in front of the first piece of [pieces]. *)
Definition push_char (c : ascii) (pieces : list string) : list string :=
  match pieces with
  | [] => [String c EmptyString]
  | p :: ps => String c p :: ps
  end.

(** [s.splitlines()]: the lines of [s] without their terminators; a
    terminator at the very end opens no further line. *)
Fixpoint splitlines (s : string) : list string :=
  match s with
  | EmptyString => []
  | String c r =>
      if is_linebreak c then
        EmptyString ::
          (if is_cr c then
             match r with
             | String c2 r2 => if is_lf c2 then splitlines r2 else splitlines r
             | EmptyString => []
             end
           else splitlines r)
      else push_char c (splitlines r)
  end.

(** [s.split()]: the maximal runs of non-whitespace characters. *)
Fixpoint split (s : string) : list string :=
  match s with
  | EmptyString => []
  | String c r =>
      if is_space c then split r
      else
        match r with
        | EmptyString => [String c EmptyString]
        | String c2 _ =>
            if is_space c2 then String c EmptyString :: split r
            else push_char c (split r)
        end
  end.

(** [s.split(sep)] for a separator of one character: every occurrence
    of [sep] cuts, and empty pieces are kept. *)
Fixpoint split_on (sep : ascii) (s : string) : list string :=
  match s with
  | EmptyString => [EmptyString]
  | String c r =>
      if Ascii.eqb c sep then EmptyString :: split_on sep r
      else push_char c (split_on sep r)
  end.

End PyStr.

(** ** AwgShowWrapper.parse *)

(** The dict built for one peer line: it always has these four keys. *)
Record peer_record : Set := {
  peer : string;
  latest_handshake : string;
  received : string;
  sent : string
}.

(** [parts[i]] *)
Definition list_getitem (parts : list string) (i : nat) : result string :=
  match parts !! i with
  | Some x => Ok x
  | None => Raise IndexError
  end.

(** The body of [for line in lines[1:]], with [peers] the list built so
    far. *)
Fixpoint parse_lines (lines : list string) (peers : list peer_record)
  : result (list peer_record) :=
  match lines with
  | [] => Ok peers
  | line :: rest =>
      let parts := PyStr.split line in
      if bool_decide (6 ≤ length parts) then
        p1 ← list_getitem parts 1;
        p5 ← list_getitem parts 5;
        p6 ← list_getitem parts 6;
        p7 ← list_getitem parts 7;
        parse_lines rest
          (peers ++ [{| peer := p1; latest_handshake := p5;
                        received := p6; sent := p7 |}])
      else parse_lines rest peers
  end.

Definition parse (text_block : string) : result (list peer_record) :=
  let lines := PyStr.splitlines (PyStr.strip text_block) in
  parse_lines (tail lines) [].

(** ** Python values read from the clients table *)

#[local] Set Warnings "-register-all".

(** What [json.load] returns.  A number is kept as the text Python prints
    for it; a dict is the list of its items in insertion order. *)
Inductive json : Type :=
  | JNull
  | JBool (b : bool)
  | JNum (text : string)
  | JStr (s : string)
  | JArr (items : list json)
  | JObj (members : list (string * json)).

Module PyVal.

Fixpoint assoc (key : string) (members : list (string * json)) : option json :=
  match members with
  | [] => None
  | (k, v) :: rest => if String.eqb k key then Some v else assoc key rest
  end.

(** [v[key]] for a [str] key: only a dict can be subscripted by a
    string. *)
Definition getitem (v : json) (key : string) : result json :=
  match v with
  | JObj members =>
      match assoc key members with
      | Some x => Ok x
      | None => Raise KeyError
      end
  | _ => Raise TypeError
  end.

(** [v == s] for a [str] [s]. *)
Definition eq_str (v : json) (s : string) : bool :=
  match v with
  | JStr t => String.eqb t s
  | _ => false
  end.

Fixpoint chars (s : string) : list json :=
  match s with
  | EmptyString => []
  | String c r => JStr (String c EmptyString) :: chars r
  end.

(** The items [for client in v] goes through: the elements of a list,
    the keys of a dict, the characters of a string. *)
Definition iter (v : json) : result (list json) :=
  match v with
  | JArr items => Ok items
  | JObj members => Ok (map (fun kv => JStr (fst kv)) members)
  | JStr s => Ok (chars s)
  | JNull | JBool _ | JNum _ => Raise TypeError
  end.

Definition quote1 : ascii := ascii_of_N 39.
Definition quote2 : ascii := ascii_of_N 34.
Definition backslash : ascii := ascii_of_N 92.

Fixpoint contains (c : ascii) (s : string) : bool :=
  match s with
  | EmptyString => false
  | String d r => Ascii.eqb c d || contains c r
  end.

Definition hex_digit (n : N) : ascii :=
  nth (N.to_nat n) (list_ascii_of_string "0123456789abcdef") "0"%char.

Definition printable (c : ascii) : bool :=
  let n := PyStr.code c in
  ((32 <=? n) && (n <? 127) || (161 <=? n) && (n <=? 172) || (174 <=? n))%N.

Definition escape_char (quote c : ascii) : string :=
  let n := PyStr.code c in
  if Ascii.eqb c quote || Ascii.eqb c backslash
  then String backslash (String c EmptyString)
  else if (n =? 9)%N then String backslash "t"
  else if (n =? 10)%N then String backslash "n"
  else if (n =? 13)%N then String backslash "r"
  else if printable c then String c EmptyString
  else String backslash
         (String "x" (String (hex_digit (n / 16)) (String (hex_digit (n mod 16)) EmptyString))).

Fixpoint escape (quote : ascii) (s : string) : string :=
  match s with
  | EmptyString => EmptyString
  | String c r => escape_char quote c +:+ escape quote r
  end.

(** [repr(s)] for a [str]. *)
Definition repr_str (s : string) : string :=
  let quote := if contains quote1 s && negb (contains quote2 s) then quote2 else quote1 in
  String quote (escape quote s) +:+ String quote EmptyString.

Fixpoint join (sep : string) (l : list string) : string :=
  match l with
  | [] => EmptyString
  | [x] => x
  | x :: rest => x +:+ sep +:+ join sep rest
  end.

(** [repr(v)] *)
Fixpoint repr (v : json) : string :=
  match v with
  | JNull => "None"
  | JBool true => "True"
  | JBool false => "False"
  | JNum text => text
  | JStr s => repr_str s
  | JArr items => "[" +:+ join ", " (map repr items) +:+ "]"
  | JObj members =>
      "{" +:+ join ", " (map (fun kv => repr_str (fst kv) +:+ ": " +:+ repr (snd kv)) members)
          +:+ "}"
  end.

(** [str(v)] *)
Definition str (v : json) : string :=
  match v with
  | JStr s => s
  | _ => repr v
  end.

End PyVal.

(** ** float() *)

Module PyFloat.

(** The value [float] returns, before rounding to a double:
    [Finite neg m e] is the double nearest to [(-1)^neg * m * 10^e]. *)
Inductive t : Set :=
  | Finite (neg : bool) (m : N) (e : Z)
  | Inf (neg : bool)
  | NaN.

#[export] Instance t_eq_dec : EqDecision t.
Proof. solve_decision. Defined.

(** [float(n)] for a small non-negative [int]. *)
Definition of_nat (n : nat) : t := Finite false (N.of_nat n) 0.

Definition digit_val (c : ascii) : option N :=
  let n := PyStr.code c in
  if ((48 <=? n) && (n <=? 57))%N then Some (n - 48)%N else None.

Definition is_underscore (c : ascii) : bool := (PyStr.code c =? 95)%N.

(** Reads [(["_"] digit)*] after the digits already read, whose value is
    [acc] and whose number is [cnt]. *)
Fixpoint digits_tail (s : string) (acc : N) (cnt : nat) : N * nat * string :=
  match s with
  | EmptyString => (acc, cnt, s)
  | String c r =>
      match digit_val c with
      | Some d => digits_tail r (10 * acc + d)%N (S cnt)
      | None =>
          if is_underscore c then
            match r with
            | String c2 r2 =>
                match digit_val c2 with
                | Some d => digits_tail r2 (10 * acc + d)%N (S cnt)
                | None => (acc, cnt, s)
                end
            | EmptyString => (acc, cnt, s)
            end
          else (acc, cnt, s)
      end
  end.

(** [digitpart ::= digit (["_"] digit)*] *)
Definition digitpart (s : string) : option (N * nat * string) :=
  match s with
  | EmptyString => None
  | String c r =>
      match digit_val c with
      | Some d => Some (digits_tail r d 1)
      | None => None
      end
  end.

Definition sign (s : string) : bool * string :=
  match s with
  | String c r =>
      if (PyStr.code c =? 45)%N then (true, r)
      else if (PyStr.code c =? 43)%N then (false, r)
      else (false, s)
  | EmptyString => (false, s)
  end.

Definition is_dot (c : ascii) : bool := (PyStr.code c =? 46)%N.

Definition after_dot (s : string) : option string :=
  match s with
  | String c r => if is_dot c then Some r else None
  | EmptyString => None
  end.

(** [number ::= [digitpart] "." digitpart | digitpart ["."]], as a
    mantissa and a power of ten. *)
Definition number (s : string) : option (N * Z * string) :=
  match digitpart s with
  | Some (i, _, r) =>
      match after_dot r with
      | Some r1 =>
          match digitpart r1 with
          | Some (f, k, r2) => Some ((i * 10 ^ N.of_nat k + f)%N, (- Z.of_nat k)%Z, r2)
          | None => Some (i, 0%Z, r1)
          end
      | None => Some (i, 0%Z, r)
      end
  | None =>
      match after_dot s with
      | Some r1 =>
          match digitpart r1 with
          | Some (f, k, r2) => Some (f, (- Z.of_nat k)%Z, r2)
          | None => None
          end
      | None => None
      end
  end.

(** [exponent ::= ("e" | "E") [sign] digitpart] *)
Definition exponent (s : string) : option (Z * string) :=
  match s with
  | String c r =>
      if ((PyStr.code c =? 101) || (PyStr.code c =? 69))%N then
        let '(neg, r1) := sign r in
        match digitpart r1 with
        | Some (x, _, r2) => Some ((if neg then - Z.of_N x else Z.of_N x)%Z, r2)
        | None => None
        end
      else None
  | EmptyString => None
  end.

Definition floatnumber (s : string) : option (N * Z * string) :=
  match number s with
  | Some (m, e, r) =>
      match exponent r with
      | Some (x, r') => Some (m, (e + x)%Z, r')
      | None => Some (m, e, r)
      end
  | None => None
  end.

Definition lower_char (c : ascii) : ascii :=
  let n := PyStr.code c in
  if ((65 <=? n) && (n <=? 90))%N then ascii_of_N (n + 32) else c.

Fixpoint lower (s : string) : string :=
  match s with
  | EmptyString => EmptyString
  | String c r => String (lower_char c) (lower r)
  end.

(** The whitespace [float] skips around the number: the ASCII blanks and,
    above them, the spaces 0x85 and 0xa0.  (The separators 0x1c to 0x1f, which
    [str.strip] removes, are not among them.) *)
Definition is_blank (c : ascii) : bool :=
  PyStr.code_in c [9; 10; 11; 12; 13; 32; 133; 160]%N.

Fixpoint ltrim (s : string) : string :=
  match s with
  | EmptyString => EmptyString
  | String c r => if is_blank c then ltrim r else s
  end.

Fixpoint rtrim (s : string) : string :=
  match s with
  | EmptyString => EmptyString
  | String c r =>
      let r' := rtrim r in
      if is_blank c && PyStr.is_empty r' then EmptyString else String c r'
  end.

(** [float(s)] for a [str]: [ValueError] unless [s], without the blanks
    around it, is a [floatvalue] of the language reference. *)
Definition of_str (s : string) : result t :=
  let '(neg, r) := sign (ltrim (rtrim s)) in
  match floatnumber r with
  | Some (m, e, EmptyString) => Ok (Finite neg m e)
  | _ =>
      let l := lower r in
      if String.eqb l "inf" || String.eqb l "infinity" then Ok (Inf neg)
      else if String.eqb l "nan" then Ok NaN
      else Raise ValueError
  end.

End PyFloat.

(** ** Configuration *)

(** A value of the [config] dict whose type the code does not fix: the
    default written in [__main__], or the string read from the environment. *)
Inductive cfgval : Set :=
  | CBool (b : bool)
  | CInt (z : Z)
  | CStr (s : string).

(** [bool(v)] *)
Definition truthy (v : cfgval) : bool :=
  match v with
  | CBool b => b
  | CInt z => negb (z =? 0)%Z
  | CStr s => negb (PyStr.is_empty s)
  end.

Record config : Set := {
  scrape_interval : cfgval;
  http_port : cfgval;
  addr : string;
  metrics_file : string;
  ops_mode : string;
  clients_table_enabled : cfgval;
  clients_table_file : string;
  awg_executable : string
}.

(** [config(name, default=d)] of [decouple] without a cast: the string
    found in the environment, or the default as it is written. *)
Definition config_get (env : string → option string) (name : string)
    (default : cfgval) : cfgval :=
  match env name with
  | Some s => CStr s
  | None => default
  end.

Definition config_get_str (env : string → option string) (name : string)
    (default : string) : string :=
  match env name with
  | Some s => s
  | None => default
  end.

(** The dict [exporter_config] of [__main__]. *)
Definition exporter_config (env : string → option string) : config := {|
  scrape_interval := config_get env "AWG_EXPORTER_SCRAPE_INTERVAL" (CInt 60);
  http_port := config_get env "AWG_EXPORTER_HTTP_PORT" (CInt 9351);
  addr := config_get_str env "AWG_EXPORTER_LISTEN_ADDR" "0.0.0.0";
  metrics_file := config_get_str env "AWG_EXPORTER_METRICS_FILE" "/tmp/prometheus/awg.prom";
  ops_mode := config_get_str env "AWG_EXPORTER_OPS_MODE" "http";
  clients_table_enabled := config_get env "AWG_EXPORTER_CLIENTS_TABLE_ENABLED" (CStr "false");
  clients_table_file := config_get_str env "AWG_EXPORTER_CLIENTS_TABLE_FILE" "./clientsTable1";
  awg_executable := config_get_str env "AWG_EXPORTER_AWG_SHOW_EXEC" "awg show"
|}.

(** No variable set: every option has its default. *)
Definition default_config : config := exporter_config (fun _ => None).

(** [self.awg_show_command], set in [Exporter.__init__]. *)
Definition awg_show_command (cfg : config) : list string :=
  PyStr.split_on " "%char cfg.(awg_executable).

(** ** The outside world of one cycle *)

Record world : Type := {
  (** [subprocess.run(command, ..., text=True, check=True)]: the captured
      standard output, or the exception raised (the binary is missing, it
      exits with a code other than 0, ...). *)
  subprocess_run : list string → result string;
  (** [open(file)] followed by [json.load]: the value read, or the
      exception raised by either. *)
  load_json : string → result json;
  (** [write_to_textfile(path, registry)]: whether the file can be
      written. *)
  write_to_textfile : string → result unit
}.

(** ** AwgShowWrapper.run_bin *)

Definition run_bin (w : world) (command : list string) : string :=
  match w.(subprocess_run) command with
  | Ok stdout => PyStr.strip stdout
  | Raise _ => EmptyString
  end.

(** ** The registry and its gauges *)

Inductive metric : Set := SentBytes | ReceivedBytes | LatestHandshake.

#[export] Instance metric_eq_dec : EqDecision metric.
Proof. solve_decision. Defined.

(** The children of the three labelled gauges, by [(peer, client_name)],
    and the value of the gauge [awg_status], which has no label. *)
Record registry : Type := {
  sent_bytes_metric : gmap (string * string) PyFloat.t;
  received_bytes_metric : gmap (string * string) PyFloat.t;
  latest_handshake_metric : gmap (string * string) PyFloat.t;
  status : PyFloat.t
}.

(** The registry [Exporter.__init__] builds: no child yet, and a gauge
    without labels starts at 0.0. *)
Definition empty_registry : registry := {|
  sent_bytes_metric := ∅;
  received_bytes_metric := ∅;
  latest_handshake_metric := ∅;
  status := PyFloat.of_nat 0
|}.

Definition children (g : metric) (r : registry) : gmap (string * string) PyFloat.t :=
  match g with
  | SentBytes => r.(sent_bytes_metric)
  | ReceivedBytes => r.(received_bytes_metric)
  | LatestHandshake => r.(latest_handshake_metric)
  end.

Definition set_children (g : metric) (m : gmap (string * string) PyFloat.t)
    (r : registry) : registry :=
  match g with
  | SentBytes =>
      {| sent_bytes_metric := m;
         received_bytes_metric := r.(received_bytes_metric);
         latest_handshake_metric := r.(latest_handshake_metric);
         status := r.(status) |}
  | ReceivedBytes =>
      {| sent_bytes_metric := r.(sent_bytes_metric);
         received_bytes_metric := m;
         latest_handshake_metric := r.(latest_handshake_metric);
         status := r.(status) |}
  | LatestHandshake =>
      {| sent_bytes_metric := r.(sent_bytes_metric);
         received_bytes_metric := r.(received_bytes_metric);
         latest_handshake_metric := m;
         status := r.(status) |}
  end.

Definition set_status (x : PyFloat.t) (r : registry) : registry :=
  {| sent_bytes_metric := r.(sent_bytes_metric);
     received_bytes_metric := r.(received_bytes_metric);
     latest_handshake_metric := r.(latest_handshake_metric);
     status := x |}.

(** Code that mutates the registry and may raise: the registry it leaves
    comes with the result, whether a value or an exception. *)
Definition cycle (A : Type) : Type := registry → registry * result A.

#[export] Instance cycle_ret : MRet cycle := fun _ a r => (r, Ok a).
#[export] Instance cycle_bind : MBind cycle := fun _ _ f m r =>
  match m r with
  | (r', Ok a) => f a r'
  | (r', Raise e) => (r', Raise e)
  end.

(** Pure code run inside a cycle. *)
Definition lift {A : Type} (x : result A) : cycle A := fun r => (r, x).

(** [gauge.labels(peer, client_name)]: the label values go through [str],
    and the child for them is created, at 0.0, when it does not exist. *)
Definition gauge_labels (g : metric) (peer_id : string) (client_name : json)
  : cycle (string * string) := fun r =>
  let k := (peer_id, PyVal.str client_name) in
  match children g r !! k with
  | Some _ => (r, Ok k)
  | None => (set_children g (<[k := PyFloat.of_nat 0]> (children g r)) r, Ok k)
  end.

(** [child.set(value)] for a [str] value: [float(value)] is stored. *)
Definition child_set (g : metric) (k : string * string) (value : string)
  : cycle unit := fun r =>
  match PyFloat.of_str value with
  | Ok x => (set_children g (<[k := x]> (children g r)) r, Ok tt)
  | Raise e => (r, Raise e)
  end.

(** [self.status.set(n)] for the literals 0 and 1. *)
Definition status_set (n : nat) : cycle unit := fun r =>
  (set_status (PyFloat.of_nat n) r, Ok tt).

(** ** Exporter.read_clients_table *)

Definition read_clients_table (w : world) (file : string) : json :=
  match w.(load_json) file with
  | Ok table => table
  | Raise _ => JArr []
  end.

(** ** Exporter.update_metrics *)

(** [next((client['userData']['clientName'] for client in clients
          if client['clientId'] == peer_id), 'unidentified')]
    once the iteration over the table has started. *)
Fixpoint next_client_name (clients : list json) (peer_id : string) : result json :=
  match clients with
  | [] => Ok (JStr "unidentified")
  | client :: rest =>
      client_id ← PyVal.getitem client "clientId";
      if PyVal.eq_str client_id peer_id then
        user_data ← PyVal.getitem client "userData";
        PyVal.getitem user_data "clientName"
      else next_client_name rest peer_id
  end.

Definition resolve_client_name (clients_table : json) (peer_id : string)
  : result json :=
  clients ← PyVal.iter clients_table;
  next_client_name clients peer_id.

(** The body of [for peer in parsed_data].  [peer.get(key, 0)] finds the
    key: [parse] puts all four in every record. *)
Definition set_peer_gauges (clients_table : json) (p : peer_record) : cycle unit :=
  client_name ← lift (resolve_client_name clients_table p.(peer));
  c1 ← gauge_labels SentBytes p.(peer) client_name;
  child_set SentBytes c1 p.(sent);;
  c2 ← gauge_labels ReceivedBytes p.(peer) client_name;
  child_set ReceivedBytes c2 p.(received);;
  c3 ← gauge_labels LatestHandshake p.(peer) client_name;
  child_set LatestHandshake c3 p.(latest_handshake).

Fixpoint for_each {A : Type} (body : A → cycle unit) (l : list A) : cycle unit :=
  match l with
  | [] => mret tt
  | x :: rest => body x;; for_each body rest
  end.

Definition is_nil {A : Type} (l : list A) : bool :=
  match l with
  | [] => true
  | _ :: _ => false
  end.

(** The table a cycle with peers uses. *)
Definition clients_table_of (cfg : config) (w : world) : json :=
  if negb (truthy cfg.(clients_table_enabled)) then JArr []
  else read_clients_table w cfg.(clients_table_file).

(** What stands inside [try:]. *)
Definition update_metrics_try (cfg : config) (w : world) : cycle unit :=
  let awg_show_result := run_bin w (awg_show_command cfg) in
  parsed_data ← lift (parse awg_show_result);
  if is_nil parsed_data then status_set 0
  else
    let clients_table := clients_table_of cfg w in
    for_each (set_peer_gauges clients_table) parsed_data;;
    status_set 1.

(** [except Exception] logs and goes on: the call returns, with the
    registry as the exception left it. *)
Definition update_metrics (cfg : config) (w : world) (r : registry) : registry :=
  fst (update_metrics_try cfg w r).

(** Whether the cycle ended in the [except] branch, and with what. *)
Definition update_metrics_caught (cfg : config) (w : world) (r : registry)
  : option exn :=
  match snd (update_metrics_try cfg w r) with
  | Ok _ => None
  | Raise e => Some e
  end.

(** ** Exporter.main_loop *)

(** What the loop does that can be seen from outside, in order. *)
Inductive event : Type :=
  | HttpServerStarted (port : cfgval) (address : string)
  | Updated
  | Written (file : string) (contents : registry)
  | WriteFailed (file : string) (e : exn)
  | Slept (interval : cfgval).

(** How a run ends: by [break], by an exception nothing catches, or not
    within the iterations granted. *)
Inductive ending : Set :=
  | Break
  | Uncaught (e : exn)
  | StillRunning.

(** [time.sleep(v)]: a string is no number, and a negative length is
    refused.  (A length beyond what the platform can wait is not
    modelled.) *)
Definition time_sleep (v : cfgval) : result unit :=
  match v with
  | CBool _ => Ok tt
  | CInt z => if (z <? 0)%Z then Raise ValueError else Ok tt
  | CStr _ => Raise TypeError
  end.

Definition writes_file (cfg : config) : bool :=
  String.eqb cfg.(ops_mode) "metricsfile" || String.eqb cfg.(ops_mode) "oneshot".

(** The statements of [try:] that follow [self.update_metrics()], on the
    registry [r] that call left: the events, and [Ok true] for [break],
    [Ok false] for the end of the body, or the exception raised. *)
Definition after_update (cfg : config) (w : world) (r : registry)
  : list event * result bool :=
  let file := cfg.(metrics_file) in
  let written :=
    if writes_file cfg then
      match w.(write_to_textfile) file with
      | Ok _ => ([Written file r], Ok tt)
      | Raise e => ([WriteFailed file e], Raise e)
      end
    else ([], Ok tt) in
  match written with
  | (evs, Raise e) => (evs, Raise e)
  | (evs, Ok _) =>
      if String.eqb cfg.(ops_mode) "oneshot" then (evs, Ok true)
      else
        match time_sleep cfg.(scrape_interval) with
        | Ok _ => (evs ++ [Slept cfg.(scrape_interval)], Ok false)
        | Raise e => (evs, Raise e)
        end
  end.

Definition prepend (evs : list event) (run : list event * registry * ending)
  : list event * registry * ending :=
  match run with
  | (evs', r, e) => (evs ++ evs', r, e)
  end.

(** [while True:], for at most [fuel] iterations; iteration [i] runs in
    the world [ws i]. *)
Fixpoint while_true (fuel : nat) (cfg : config) (ws : nat → world) (i : nat)
    (r : registry) : list event * registry * ending :=
  match fuel with
  | 0 => ([], r, StillRunning)
  | S fuel' =>
      let w := ws i in
      let r1 := update_metrics cfg w r in
      match after_update cfg w r1 with
      | (evs, Ok true) => (Updated :: evs, r1, Break)
      | (evs, Ok false) =>
          prepend (Updated :: evs) (while_true fuel' cfg ws (S i) r1)
      | (evs, Raise _) =>
          (* except Exception: log, sleep *)
          match time_sleep cfg.(scrape_interval) with
          | Ok _ =>
              prepend (Updated :: evs ++ [Slept cfg.(scrape_interval)])
                (while_true fuel' cfg ws (S i) r1)
          | Raise e => (Updated :: evs, r1, Uncaught e)
          end
      end
  end.

(** [start_http_server] is given by its outcome [http]; the registration of
    the signal handlers is not modelled. *)
Definition main_loop (fuel : nat) (cfg : config) (http : result unit)
    (ws : nat → world) (r : registry) : list event * registry * ending :=
  if String.eqb cfg.(ops_mode) "http" then
    match http with
    | Ok _ =>
        prepend [HttpServerStarted cfg.(http_port) cfg.(addr)]
          (while_true fuel cfg ws 0 r)
    | Raise e => ([], r, Uncaught e)
    end
  else while_true fuel cfg ws 0 r.

(** ** Reading the result of [parse] *)

Definition nl : string := String (ascii_of_N 10) EmptyString.

(** A line the loop of [parse] keeps. *)
Definition accepted (line : string) : Prop := 6 ≤ length (PyStr.split line).

#[export] Instance accepted_dec line : Decision (accepted line).
Proof. unfold accepted. apply _. Defined.

(** The record [parse] builds from a line, field by field. *)
Definition record_of_line (line : string) : peer_record :=
  let parts := PyStr.split line in
  {| peer := default EmptyString (parts !! 1);
     latest_handshake := default EmptyString (parts !! 5);
     received := default EmptyString (parts !! 6);
     sent := default EmptyString (parts !! 7) |}.

(** The lines [parse] loops over. *)
Definition peer_lines (text_block : string) : list string :=
  tail (PyStr.splitlines (PyStr.strip text_block)).

(** ** The identity table of the specification *)

(** An entry of the identity table: a peer id and the name to show. *)
Record identity_entry : Set := {
  client_id : string;
  client_name : string
}.

(** The smallest JSON object that holds an entry. *)
Definition entry_json (e : identity_entry) : json :=
  JObj [("clientId", JStr e.(client_id));
        ("userData", JObj [("clientName", JStr e.(client_name))])].

(** A JSON value holds the entry [e] when the two subscripts of the
    generator find its id and its name, whatever else the object has. *)
Definition holds_entry (client : json) (e : identity_entry) : Prop :=
  PyVal.getitem client "clientId" = Ok (JStr e.(client_id)) ∧
  (user_data ← PyVal.getitem client "userData";
   PyVal.getitem user_data "clientName") = Ok (JStr e.(client_name)).

(** [resolve] as the specification words it: the name of the first entry
    with this id, or the fallback. *)
Fixpoint resolve (peer_id : string) (table : list identity_entry) : string :=
  match table with
  | [] => "unidentified"
  | e :: rest =>
      if String.eqb e.(client_id) peer_id then e.(client_name)
      else resolve peer_id rest
  end.

(** ** The writes of a cycle *)

(** The three ways the code of a cycle writes to the registry. *)
Inductive write : Type :=
  | Touch (g : metric) (k : string * string)
  | Store (g : metric) (k : string * string) (x : PyFloat.t)
  | StoreStatus (x : PyFloat.t).

Definition apply_write (o : write) (r : registry) : registry :=
  match o with
  | Touch g k =>
      match children g r !! k with
      | Some _ => r
      | None => set_children g (<[k := PyFloat.of_nat 0]> (children g r)) r
      end
  | Store g k x => set_children g (<[k := x]> (children g r)) r
  | StoreStatus x => set_status x r
  end.

Definition apply_writes (os : list write) (r : registry) : registry :=
  foldl (fun r o => apply_write o r) r os.

(** The labels a write is about satisfy [P]. *)
Definition write_within (P : string * string → Prop) (o : write) : Prop :=
  match o with
  | Touch _ k | Store _ k _ => P k
  | StoreStatus _ => True
  end.

(** A computation is uniform when what it writes and what it returns do
    not depend on the registry it starts from; [P] bounds the labels it
    writes to. *)
Definition uniform {A : Type} (P : string * string → Prop) (m : cycle A) : Prop :=
  ∃ os x, Forall (write_within P) os ∧ ∀ r, m r = (apply_writes os r, x).

(** A computation that leaves the status gauge as it finds it. *)
Definition keeps_status {A : Type} (m : cycle A) : Prop :=
  ∀ r, status (fst (m r)) = status r.


(** What a sequence of writes can do to one child: nothing, create it at
    0.0 if it is absent, or give it a value. *)
Definition cell_effect (f : option PyFloat.t → option PyFloat.t) : Prop :=
  (∀ o, f o = o) ∨
  (∀ o, f o = Some (default (PyFloat.of_nat 0) o)) ∨
  (∃ x, ∀ o, f o = Some x).

Definition status_effect (f : PyFloat.t → PyFloat.t) : Prop :=
  (∀ x, f x = x) ∨ (∃ y, ∀ x, f x = y).


(** ** Worlds and configurations to run the model on *)

(** A world where the command prints [stdout], reading the table gives
    [table] and writing the metrics file gives [written]. *)
Definition world_of (stdout : string) (table : result json)
    (written : result unit) : world := {|
  subprocess_run := fun _ => Ok stdout;
  load_json := fun _ => table;
  write_to_textfile := fun _ => written
|}.


(** The environment that sets the mode to [oneshot] and nothing else. *)
Definition oneshot_env (name : string) : option string :=
  if String.eqb name "AWG_EXPORTER_OPS_MODE" then Some "oneshot" else None.

Definition one_peer_report : string :=
  "header line" +:+ nl +:+ "bla P1 x x x 5 100 200".

Definition bad_second_peer_report : string :=
  "header line" +:+ nl +:+ "bla P1 x x x 5 100 200" +:+ nl
  +:+ "bla P2 x x x 6 300 abc".

(** ** Further definitions *)

(** Whether every character of [s] is whitespace for [str.strip]. *)
Fixpoint all_space (s : string) : bool :=
  match s with
  | EmptyString => true
  | String c r => PyStr.is_space c && all_space r
  end.

(** Whether some character of [s] is whitespace for [str.split]. *)
Fixpoint has_space (s : string) : bool :=
  match s with
  | EmptyString => false
  | String c r => PyStr.is_space c || has_space r
  end.

(** A field as [str.split()] cuts it: not empty, and free of whitespace. *)
Definition is_field (s : string) : Prop :=
  s ≠ EmptyString ∧ has_space s = false.

(** A line [parse] accepts and then cannot read: [parts[6]] or [parts[7]]
    is missing. *)
Definition unreadable (line : string) : Prop :=
  accepted line ∧ length (PyStr.split line) < 8.

(** The four values of a record are fields. *)
Definition record_fields (p : peer_record) : Prop :=
  is_field p.(peer) ∧ is_field p.(latest_handshake) ∧
  is_field p.(received) ∧ is_field p.(sent).

Definition space : string := String (ascii_of_N 32) EmptyString.

(** A world where the command cannot be run. *)
Definition no_binary_world : world := {|
  subprocess_run := fun _ => Raise OSError;
  load_json := fun _ => Raise OSError;
  write_to_textfile := fun _ => Ok tt
|}.

(** What one pass of the loop body gives a peer: the three children for
    the labels [k] hold [xs], [xr] and [xh]. *)
Definition store_peer (k : string * string) (xs xr xh : PyFloat.t)
    (r : registry) : registry := {|
  sent_bytes_metric := <[k := xs]> r.(sent_bytes_metric);
  received_bytes_metric := <[k := xr]> r.(received_bytes_metric);
  latest_handshake_metric := <[k := xh]> r.(latest_handshake_metric);
  status := r.(status)
|}.

(** The three numbers [float] reads in a record. *)
Definition record_values (p : peer_record) (xs xr xh : PyFloat.t) : Prop :=
  PyFloat.of_str p.(sent) = Ok xs ∧
  PyFloat.of_str p.(received) = Ok xr ∧
  PyFloat.of_str p.(latest_handshake) = Ok xh.

(** A record the loop body goes through without an exception: its peer id
    resolves and its three numbers are floats. *)
Definition peer_ready (table : json) (p : peer_record) : Prop :=
  (∃ name, resolve_client_name table p.(peer) = Ok name) ∧
  (∃ xs xr xh, record_values p xs xr xh).

(** A table on which the scan raises [e] whatever the peer id: a value that
    cannot be iterated, a container whose first item cannot be subscripted
    by a string, or a list whose first item has no ["clientId"]. *)
Definition table_raises (table : json) (e : exn) : Prop :=
  match table with
  | JNull | JBool _ | JNum _ => e = TypeError
  | JStr s => s ≠ EmptyString ∧ e = TypeError
  | JObj members => members ≠ [] ∧ e = TypeError
  | JArr items =>
      match items with
      | [] => False
      | client :: _ => PyVal.getitem client "clientId" = Raise e
      end
  end.

(** The character of a decimal digit, and the string of a list of digits. *)
Definition digit_char (d : N) : ascii := ascii_of_N (48 + d).

Fixpoint decimal (ds : list N) : string :=
  match ds with
  | [] => EmptyString
  | d :: rest => String (digit_char d) (decimal rest)
  end.


(** ** Reading a run of the loop *)

Definition is_updated (e : event) : bool :=
  match e with Updated => true | _ => false end.

Definition is_slept (e : event) : bool :=
  match e with Slept _ => true | _ => false end.


Definition is_file_event (e : event) : bool :=
  match e with Written _ _ | WriteFailed _ _ => true | _ => false end.

Definition is_server_event (e : event) : bool :=
  match e with HttpServerStarted _ _ => true | _ => false end.

(** How many events of a run satisfy [p]. *)
Fixpoint count (p : event → bool) (evs : list event) : nat :=
  match evs with
  | [] => 0
  | e :: rest => (if p e then 1 else 0) + count p rest
  end.

(** The registry after [n] cycles in a row, run in the worlds [ws i],
    [ws (i + 1)], ... *)
Fixpoint cycles (cfg : config) (ws : nat → world) (i n : nat) (r : registry)
  : registry :=
  match n with
  | 0 => r
  | S n' => cycles cfg ws (S i) n' (update_metrics cfg (ws i) r)
  end.

Definition events_of (run : list event * registry * ending) : list event := run.1.1.
Definition registry_of (run : list event * registry * ending) : registry := run.1.2.
Definition ending_of (run : list event * registry * ending) : ending := run.2.

(** The status gauge holds one of the two values the code gives it. *)
Definition zero_or_one (x : PyFloat.t) : Prop :=
  x = PyFloat.of_nat 0 ∨ x = PyFloat.of_nat 1.

(** The environment that sets the scrape interval and nothing else. *)
Definition interval_env (value : string) (name : string) : option string :=
  if String.eqb name "AWG_EXPORTER_SCRAPE_INTERVAL" then Some value else None.

(** The environment that sets the mode to [metricsfile] and nothing else. *)
Definition metricsfile_env (name : string) : option string :=
  if String.eqb name "AWG_EXPORTER_OPS_MODE" then Some "metricsfile" else None.

(** ** Loggers *)

(** The handlers [MyLogger] attaches: a stream and the lowest level the
    handler lets through. *)
Inductive stream : Set := Stdout | Stderr.
Inductive loglevel : Set := INFO | ERROR.

Record handler : Set := {
  handler_stream : stream;
  handler_level : loglevel
}.

(** The handlers of the logger [name] in [lg], which holds the handlers of
    every named logger: [logging.getLogger(name)] gives the same logger each
    time it is called with the same name. *)
Definition handlers_of (name : string) (lg : gmap string (list handler))
  : list handler :=
  default [] (lg !! name).

(** [MyLogger(name)]: two new handlers are added to the logger [name], one
    on stdout from [INFO] on and one on stderr from [ERROR] on.  (The level of
    the logger itself is set to [INFO].) *)
Definition MyLogger (name : string) (lg : gmap string (list handler))
  : gmap string (list handler) :=
  <[name := handlers_of name lg
            ++ [ {| handler_stream := Stdout; handler_level := INFO |};
                 {| handler_stream := Stderr; handler_level := ERROR |} ]]> lg.

(** Whether a handler writes a record of level [lvl]. *)
Definition lets_through (lvl : loglevel) (h : handler) : bool :=
  match h.(handler_level), lvl with
  | INFO, _ => true
  | ERROR, ERROR => true
  | ERROR, INFO => false
  end.

(** [logger.info(msg)] and [logger.error(msg)] on the logger [name]: the
    streams the one message is written to, a copy for each handler that
    lets it through. *)
Definition emit (name : string) (lvl : loglevel) (lg : gmap string (list handler))
  : list stream :=
  map handler_stream (List.filter (lets_through lvl) (handlers_of name lg)).

(** The first statement of [run_bin], [log = MyLogger('AwgShowWrapper').logger],
    which every call runs. *)
Definition run_bin_logger (lg : gmap string (list handler))
  : gmap string (list handler) := MyLogger "AwgShowWrapper" lg.

(** The loggers after [n] calls of [run_bin], one for each cycle. *)
Fixpoint after_calls (n : nat) (lg : gmap string (list handler))
  : gmap string (list handler) :=
  match n with
  | 0 => lg
  | S n' => run_bin_logger (after_calls n' lg)
  end.

(** ** The options [__main__] logs *)

(** The keys of [exporter_config], in the order of the dict. *)
Definition config_keys : list string :=
  ["scrape_interval"; "http_port"; "addr"; "metrics_file"; "ops_mode";
   "clients_table_enabled"; "clients_table_file"; "awg_executable"].

(** The keys for which the loop of [__main__] writes a line: it skips
    [metrics_file] unless the mode is [metricsfile]. *)
Definition logged_keys (cfg : config) : list string :=
  List.filter
    (fun key => negb (String.eqb key "metrics_file"
                      && negb (String.eqb cfg.(ops_mode) "metricsfile")))
    config_keys.

(** * Facts *)

Module PyStrFacts.
Import PyStr.

Lemma lf_is_space c : is_lf c = true → is_space c = true.
Proof.
  destruct c as [[] [] [] [] [] [] [] []]; vm_compute; congruence.
Qed.

Lemma length_push_char c l : length (push_char c l) = max 1 (length l).
Proof. destruct l; reflexivity. Qed.

Lemma lf_is_linebreak c : is_lf c = true → is_linebreak c = true.
Proof.
  destruct c as [[] [] [] [] [] [] [] []]; vm_compute; congruence.
Qed.

Lemma lf_not_cr c : is_lf c = true → is_cr c = false.
Proof.
  destruct c as [[] [] [] [] [] [] [] []]; vm_compute; congruence.
Qed.

Lemma splitlines_lstrip s :
  length (splitlines (lstrip s)) ≤ length (splitlines s).
Proof.
  induction s as [|c r IH]; [done|].
  cbn [lstrip].
  destruct (is_space c) eqn:Hsp; [|done].
  cbn [splitlines].
  destruct (is_linebreak c) eqn:Hlb; [|rewrite length_push_char; lia].
  destruct (is_cr c); [|cbn [length]; lia].
  destruct r as [|c2 r2]; [cbn; lia|].
  destruct (is_lf c2) eqn:Hlf; [|cbn [length]; lia].
  cbn [lstrip] in IH |- *. rewrite (lf_is_space _ Hlf) in IH |- *.
  revert IH. cbn [splitlines].
  rewrite (lf_is_linebreak _ Hlf), (lf_not_cr _ Hlf).
  cbn [length]. lia.
Qed.

Lemma rstrip_cons c r :
  rstrip (String c r) = EmptyString ∨ rstrip (String c r) = String c (rstrip r).
Proof.
  cbn [rstrip]. destruct (is_space c && is_empty (rstrip r)); auto.
Qed.

Lemma splitlines_rstrip s :
  length (splitlines (rstrip s)) ≤ length (splitlines s).
Proof.
  induction s as [|c r IH]; [done|].
  destruct (rstrip_cons c r) as [-> | ->]; [cbn; lia|].
  cbn [splitlines].
  destruct (is_linebreak c); [|rewrite !length_push_char; lia].
  destruct (is_cr c); [|cbn [length]; lia].
  destruct r as [|c2 r2]; [cbn; lia|].
  destruct (rstrip_cons c2 r2) as [E | E]; rewrite E in *; [cbn; lia|].
  destruct (is_lf c2) eqn:Hlf; [|cbn [length]; lia].
  revert IH. cbn [splitlines].
  rewrite (lf_is_linebreak _ Hlf), (lf_not_cr _ Hlf).
  cbn [length]. lia.
Qed.

Lemma splitlines_strip s :
  length (splitlines (strip s)) ≤ length (splitlines s).
Proof.
  unfold strip. etrans; [apply splitlines_lstrip | apply splitlines_rstrip].
Qed.
End PyStrFacts.

(** ** parse *)

Section ParseFacts.

Lemma filter_Forall_id {A} (P : A → Prop) `{!∀ x, Decision (P x)} (l : list A) :
  Forall P l → filter P l = l.
Proof.
  induction 1 as [|x l Hx _ IH]; [done|].
  rewrite filter_cons_True by done. by rewrite IH.
Qed.

Lemma parse_lines_rejected line rest peers :
  ¬ accepted line → parse_lines (line :: rest) peers = parse_lines rest peers.
Proof.
  intros H. cbn [parse_lines]. rewrite bool_decide_eq_false_2; done.
Qed.

Lemma parse_lines_accepted line rest peers :
  8 ≤ length (PyStr.split line) →
  parse_lines (line :: rest) peers
  = parse_lines rest (peers ++ [record_of_line line]).
Proof.
  intros H. cbn [parse_lines]. rewrite bool_decide_eq_true_2 by lia.
  unfold record_of_line, list_getitem.
  destruct (lookup_lt_is_Some_2 (PyStr.split line) 1) as [p1 ->]; [lia|].
  destruct (lookup_lt_is_Some_2 (PyStr.split line) 5) as [p5 ->]; [lia|].
  destruct (lookup_lt_is_Some_2 (PyStr.split line) 6) as [p6 ->]; [lia|].
  destruct (lookup_lt_is_Some_2 (PyStr.split line) 7) as [p7 ->]; [lia|].
  reflexivity.
Qed.

(** An accepted line with fewer than 8 fields stops the loop:
    [parts[6]] or [parts[7]] is out of range. *)
Lemma parse_lines_index_error line rest peers :
  accepted line → length (PyStr.split line) < 8 →
  parse_lines (line :: rest) peers = Raise IndexError.
Proof.
  intros Ha Hlt. cbn [parse_lines]. rewrite bool_decide_eq_true_2 by done.
  unfold accepted in Ha. unfold list_getitem.
  destruct (lookup_lt_is_Some_2 (PyStr.split line) 1) as [p1 ->]; [lia|].
  destruct (lookup_lt_is_Some_2 (PyStr.split line) 5) as [p5 ->]; [lia|].
  cbn.
  destruct (PyStr.split line !! 6) as [p6|] eqn:E6; [|done].
  cbn. rewrite (lookup_ge_None_2 (PyStr.split line) 7) by lia. done.
Qed.

Lemma parse_lines_cases line :
  ¬ accepted line ∨ (accepted line ∧ length (PyStr.split line) < 8)
  ∨ 8 ≤ length (PyStr.split line).
Proof. unfold accepted. lia. Qed.

(** What the loop returns, when it returns. *)
Lemma parse_lines_Ok lines peers recs :
  parse_lines lines peers = Ok recs →
  recs = peers ++ map record_of_line (filter accepted lines).
Proof.
  revert peers. induction lines as [|line rest IH]; intros peers.
  - cbn. intros [= <-]. by rewrite app_nil_r.
  - destruct (parse_lines_cases line) as [Hn | [[Ha Hlt] | H8]].
    + rewrite parse_lines_rejected by done. rewrite filter_cons_False by done.
      apply IH.
    + rewrite parse_lines_index_error by done. done.
    + rewrite parse_lines_accepted by done.
      rewrite filter_cons_True by (unfold accepted; lia).
      intros H. apply IH in H. by rewrite <- app_assoc in H.
Qed.

(** The loop returns when every line it keeps has 8 fields. *)
Lemma parse_lines_total lines peers :
  Forall (fun line => accepted line → 8 ≤ length (PyStr.split line)) lines →
  parse_lines lines peers
  = Ok (peers ++ map record_of_line (filter accepted lines)).
Proof.
  intros H. revert peers. induction H as [|line rest Hl _ IH]; intros peers.
  - cbn. by rewrite app_nil_r.
  - destruct (decide (accepted line)) as [Ha | Hn].
    + rewrite parse_lines_accepted by auto.
      rewrite filter_cons_True by done. rewrite IH. by rewrite <- app_assoc.
    + rewrite parse_lines_rejected by done. rewrite filter_cons_False by done.
      apply IH.
Qed.

(** A rejected line can be taken out of the input of the loop. *)
Lemma parse_lines_drop before line after peers :
  ¬ accepted line →
  parse_lines (before ++ line :: after) peers = parse_lines (before ++ after) peers.
Proof.
  intros Hn. revert peers. induction before as [|l before IH]; intros peers.
  - by apply parse_lines_rejected.
  - cbn [app]. destruct (parse_lines_cases l) as [Hl | [[Ha Hlt] | H8]].
    + rewrite !(parse_lines_rejected l) by done. apply IH.
    + by rewrite !(parse_lines_index_error l).
    + rewrite !(parse_lines_accepted l) by done. apply IH.
Qed.

End ParseFacts.

(** The end-to-end scenario: one header line and one peer line. *)
Example parse_one_peer :
  parse ("header line" +:+ nl +:+ "bla P1 x x x 5 100 200")
  = Ok [{| peer := "P1"; latest_handshake := "5";
           received := "100"; sent := "200" |}].
Proof. vm_compute. reflexivity. Qed.

(** With 8 fields or more on every line after the header, [parse] returns
    one record per line, made of the fields 1, 5, 6 and 7. *)
Lemma parse_eight_fields text :
  Forall (fun line => 8 ≤ length (PyStr.split line)) (peer_lines text) →
  parse text = Ok (map record_of_line (peer_lines text)).
Proof.
  intros H. unfold parse. fold (peer_lines text).
  rewrite parse_lines_total.
  - cbn [app]. f_equal. f_equal. apply filter_Forall_id.
    eapply Forall_impl; [exact H|]. intros l Hl. unfold accepted. cbn beta in Hl. lia.
  - eapply Forall_impl; [exact H|]. auto.
Qed.

(** As soon as one accepted line has fewer than 8 fields, [parse] raises
    [IndexError], whatever the other lines are. *)
Lemma parse_lines_raises lines peers :
  Exists (fun line => accepted line ∧ length (PyStr.split line) < 8) lines →
  parse_lines lines peers = Raise IndexError.
Proof.
  intros H. revert peers. induction H as [line rest [Ha Hlt] | line rest _ IH];
    intros peers.
  - by apply parse_lines_index_error.
  - destruct (parse_lines_cases line) as [Hn | [[Ha Hlt] | H8]].
    + rewrite parse_lines_rejected by done. apply IH.
    + by apply parse_lines_index_error.
    + rewrite parse_lines_accepted by done. apply IH.
Qed.

Lemma parse_raises text :
  Exists (fun line => accepted line ∧ length (PyStr.split line) < 8) (peer_lines text) →
  parse text = Raise IndexError.
Proof. apply parse_lines_raises. Qed.

(** C2: a report whose only peer line has 6 fields is a report of N = 1
    lines of at least 6 fields each; [parse] returns no record for it but
    raises [IndexError], at [parts[6]]. *)
Theorem parse_six_fields_index_error :
  let text := "header line" +:+ nl +:+ "bla P1 x x x 5" in
  PyStr.splitlines text = ["header line"; "bla P1 x x x 5"] ∧
  PyStr.split "bla P1 x x x 5" = ["bla"; "P1"; "x"; "x"; "x"; "5"] ∧
  parse text = Raise IndexError.
Proof. vm_compute. done. Qed.

(** C4: an input that is empty or has the header line only gives the empty
    list, without an exception; and a line after the header with fewer
    than 6 fields adds nothing: the outcome of [parse] is the outcome of
    its loop on the other lines. *)
Theorem parse_short_lines_and_header_only text :
  (length (PyStr.splitlines text) ≤ 1 → parse text = Ok []) ∧
  (∀ before line after,
     peer_lines text = before ++ line :: after →
     length (PyStr.split line) < 6 →
     parse text = parse_lines (before ++ after) []).
Proof.
  split.
  - intros H. unfold parse.
    pose proof (PyStrFacts.splitlines_strip text) as Hs.
    destruct (PyStr.splitlines (PyStr.strip text)) as [|hd [|l ls]]; cbn in *; done || lia.
  - intros before line after E Hshort. unfold parse. fold (peer_lines text).
    rewrite E. apply parse_lines_drop. unfold accepted. lia.
Qed.

Lemma parse_short_lines_and_header_only_witness :
  parse ("header line" +:+ nl) = Ok [] ∧
  parse ("header line" +:+ nl +:+ "bla P1 x x x 5 100 200" +:+ nl
         +:+ "bla P2 x" +:+ nl +:+ "bla P3 y y y 6 300 400")
  = parse_lines ["bla P1 x x x 5 100 200"; "bla P3 y y y 6 300 400"] [].
Proof.
  split.
  - apply (proj1 (parse_short_lines_and_header_only _)). vm_compute. lia.
  - apply (proj2 (parse_short_lines_and_header_only _)
             ["bla P1 x x x 5 100 200"] "bla P2 x" ["bla P3 y y y 6 300 400"]).
    + vm_compute. reflexivity.
    + vm_compute. lia.
Defined.

(** The fields of a line with 8 fields or more are where the record has
    them. *)
Lemma record_of_line_fields line :
  8 ≤ length (PyStr.split line) →
  PyStr.split line !! 1 = Some (record_of_line line).(peer) ∧
  PyStr.split line !! 5 = Some (record_of_line line).(latest_handshake) ∧
  PyStr.split line !! 6 = Some (record_of_line line).(received) ∧
  PyStr.split line !! 7 = Some (record_of_line line).(sent).
Proof.
  intros H. unfold record_of_line. cbn.
  destruct (lookup_lt_is_Some_2 (PyStr.split line) 1) as [p1 ->]; [lia|].
  destruct (lookup_lt_is_Some_2 (PyStr.split line) 5) as [p5 ->]; [lia|].
  destruct (lookup_lt_is_Some_2 (PyStr.split line) 6) as [p6 ->]; [lia|].
  destruct (lookup_lt_is_Some_2 (PyStr.split line) 7) as [p7 ->]; [lia|].
  done.
Qed.

(** C10: the records [parse] returns are those of the accepted lines
    (6 fields or more) after the header, in the order of the lines: record
    [i] is built from the [i]-th accepted line.  And [parse] does return
    when every accepted line has the 8 fields it reads. *)
Theorem parse_keeps_line_order text :
  (∀ recs,
     parse text = Ok recs →
     recs = map record_of_line (filter accepted (peer_lines text)) ∧
     ∀ i, recs !! i = record_of_line <$> (filter accepted (peer_lines text) !! i)) ∧
  (Forall (fun line => accepted line → 8 ≤ length (PyStr.split line)) (peer_lines text) →
   parse text = Ok (map record_of_line (filter accepted (peer_lines text)))).
Proof.
  split.
  - intros recs H. unfold parse in H. fold (peer_lines text) in H.
    apply parse_lines_Ok in H. cbn [app] in H. subst recs.
    split; [done|]. intros i. apply list_lookup_fmap.
  - intros H. unfold parse. fold (peer_lines text). by rewrite parse_lines_total.
Qed.

Lemma parse_keeps_line_order_witness :
  let text := "header line" +:+ nl +:+ "bla P1 x x x 5 100 200" +:+ nl
              +:+ "bla P2 x" +:+ nl +:+ "bla P3 y y y 6 300 400" in
  let recs :=
    [ {| peer := "P1"; latest_handshake := "5"; received := "100"; sent := "200" |};
      {| peer := "P3"; latest_handshake := "6"; received := "300"; sent := "400" |} ] in
  parse text = Ok recs ∧
  recs = map record_of_line (filter accepted (peer_lines text)) ∧
  parse text = Ok (map record_of_line (filter accepted (peer_lines text))).
Proof.
  intros text recs.
  assert (parse text = Ok recs) as H by (vm_compute; reflexivity).
  split; [exact H|]. split.
  - exact (proj1 (proj1 (parse_keeps_line_order text) recs H)).
  - apply (proj2 (parse_keeps_line_order text)).
    replace (peer_lines text)
      with ["bla P1 x x x 5 100 200"; "bla P2 x"; "bla P3 y y y 6 300 400"]
      by (vm_compute; reflexivity).
    do 3 (constructor; [vm_compute; lia|]). constructor.
Defined.

(** ** The identity table *)

Section ResolveFacts.

Lemma holds_entry_json e : holds_entry (entry_json e) e.
Proof. split; reflexivity. Qed.

Lemma table_holds_entries table :
  Forall2 holds_entry (map entry_json table) table.
Proof.
  induction table as [|e table IH]; constructor; auto using holds_entry_json.
Qed.

Lemma next_client_name_resolve peer_id clients table :
  Forall2 holds_entry clients table →
  next_client_name clients peer_id = Ok (JStr (resolve peer_id table)).
Proof.
  induction 1 as [|client e clients table [Hid Hname] _ IH]; [done|].
  cbn [next_client_name resolve]. rewrite Hid. cbn.
  destruct (String.eqb (client_id e) peer_id); [exact Hname | exact IH].
Qed.

Lemma resolve_no_match peer_id table :
  Forall (fun e => e.(client_id) ≠ peer_id) table →
  resolve peer_id table = "unidentified".
Proof.
  induction 1 as [|e table Hne _ IH]; [done|].
  cbn [resolve]. apply String.eqb_neq in Hne. by rewrite Hne.
Qed.

Lemma resolve_first peer_id before e after :
  Forall (fun e' => e'.(client_id) ≠ peer_id) before →
  e.(client_id) = peer_id →
  resolve peer_id (before ++ e :: after) = e.(client_name).
Proof.
  intros Hb He. induction Hb as [|e' before Hne _ IH].
  - cbn. apply String.eqb_eq in He. by rewrite He.
  - cbn [app resolve]. apply String.eqb_neq in Hne. by rewrite Hne.
Qed.

End ResolveFacts.

(** C5: on a table of entries, the scan of [update_metrics] returns the
    name of the first entry, in table order, whose id is the peer id, so the
    first of several entries with one id wins; and it returns
    ["unidentified"] when no entry has the id. *)
Theorem resolve_first_match_or_unidentified peer_id clients table :
  Forall2 holds_entry clients table →
  resolve_client_name (JArr clients) peer_id = Ok (JStr (resolve peer_id table)) ∧
  (Forall (fun e => e.(client_id) ≠ peer_id) table →
   resolve_client_name (JArr clients) peer_id = Ok (JStr "unidentified")) ∧
  (∀ before e after,
     table = before ++ e :: after →
     Forall (fun e' => e'.(client_id) ≠ peer_id) before →
     e.(client_id) = peer_id →
     resolve_client_name (JArr clients) peer_id = Ok (JStr e.(client_name))).
Proof.
  intros H.
  assert (resolve_client_name (JArr clients) peer_id
          = Ok (JStr (resolve peer_id table))) as E.
  { unfold resolve_client_name. cbn. by apply next_client_name_resolve. }
  split; [exact E|]. rewrite E. split.
  - intros Hno. by rewrite resolve_no_match.
  - intros before e after -> Hb He. by rewrite resolve_first.
Qed.

Lemma resolve_first_match_or_unidentified_witness :
  let bob := {| client_id := "P2"; client_name := "bob" |} in
  let alice := {| client_id := "P1"; client_name := "alice" |} in
  let carol := {| client_id := "P1"; client_name := "carol" |} in
  resolve_client_name (JArr (map entry_json [bob; alice; carol])) "P1"
  = Ok (JStr "alice") ∧
  resolve_client_name (JArr (map entry_json [bob])) "P1"
  = Ok (JStr "unidentified").
Proof.
  intros bob alice carol. split.
  - apply (proj2 (proj2 (resolve_first_match_or_unidentified "P1"
             (map entry_json [bob; alice; carol]) [bob; alice; carol]
             (table_holds_entries _)))
             [bob] alice [carol]).
    + reflexivity.
    + constructor; [discriminate | constructor].
    + reflexivity.
  - apply (proj1 (proj2 (resolve_first_match_or_unidentified "P1"
             (map entry_json [bob]) [bob] (table_holds_entries _)))).
    constructor; [discriminate | constructor].
Defined.



(** ** The registry *)

Section RegistryFacts.

Lemma registry_eq r1 r2 :
  (∀ g, children g r1 = children g r2) → status r1 = status r2 → r1 = r2.
Proof.
  intros Hc Hs. destruct r1, r2. cbn in *.
  pose proof (Hc SentBytes). pose proof (Hc ReceivedBytes).
  pose proof (Hc LatestHandshake). cbn in *. congruence.
Qed.

Lemma children_set_children g g' m r :
  children g (set_children g' m r) = if decide (g = g') then m else children g r.
Proof. destruct g, g'; reflexivity. Qed.

Lemma status_set_children g m r : status (set_children g m r) = status r.
Proof. by destruct g. Qed.

Lemma children_set_status g x r : children g (set_status x r) = children g r.
Proof. by destruct g. Qed.

Lemma cell_effect_idemp f o : cell_effect f → f (f o) = f o.
Proof.
  intros [H | [H | [x H]]].
  - by rewrite !H.
  - by rewrite !H.
  - by rewrite !H.
Qed.

Lemma cell_effect_compose f1 f2 :
  cell_effect f1 → cell_effect f2 → cell_effect (fun o => f2 (f1 o)).
Proof.
  intros H1 [H2 | [H2 | [x H2]]].
  - destruct H1 as [H1 | [H1 | [y H1]]].
    + left. intros o. by rewrite H2, H1.
    + right; left. intros o. by rewrite H2, H1.
    + right; right. exists y. intros o. by rewrite H2, H1.
  - destruct H1 as [H1 | [H1 | [y H1]]].
    + right; left. intros o. by rewrite H2, H1.
    + right; left. intros o. by rewrite H2, H1.
    + right; right. exists y. intros o. by rewrite H2, H1.
  - right; right. exists x. intros o. by rewrite H2.
Qed.

Lemma status_effect_idemp f x : status_effect f → f (f x) = f x.
Proof. intros [H | [y H]]; by rewrite !H. Qed.

Lemma status_effect_compose f1 f2 :
  status_effect f1 → status_effect f2 → status_effect (fun x => f2 (f1 x)).
Proof.
  intros H1 [H2 | [y H2]].
  - destruct H1 as [H1 | [z H1]].
    + left. intros x. by rewrite H2, H1.
    + right. exists z. intros x. by rewrite H2, H1.
  - right. exists y. intros x. by rewrite H2.
Qed.

(** One write acts on each child by a [cell_effect]. *)
Lemma apply_write_cell o g k :
  ∃ f, cell_effect f ∧ ∀ r, children g (apply_write o r) !! k = f (children g r !! k).
Proof.
  destruct o as [g' k' | g' k' x | x].
  - destruct (decide (g = g' ∧ k = k')) as [[-> ->] | Hne].
    + exists (fun o => Some (default (PyFloat.of_nat 0) o)). split; [right; by left|].
      intros r. cbn [apply_write]. destruct (children g' r !! k') eqn:E.
      * by rewrite E.
      * rewrite children_set_children, decide_True by done.
        by rewrite lookup_insert_eq.
    + exists (fun o => o). split; [by left|].
      intros r. cbn [apply_write]. destruct (children g' r !! k') eqn:E; [done|].
      rewrite children_set_children. case_decide; [|done]. subst g'.
      rewrite lookup_insert_ne; [done|]. intros ->. by apply Hne.
  - destruct (decide (g = g' ∧ k = k')) as [[-> ->] | Hne].
    + exists (fun _ => Some x). split; [right; right; by exists x|].
      intros r. cbn [apply_write].
      rewrite children_set_children, decide_True by done.
      by rewrite lookup_insert_eq.
    + exists (fun o => o). split; [by left|].
      intros r. cbn [apply_write].
      rewrite children_set_children. case_decide; [|done]. subst g'.
      rewrite lookup_insert_ne; [done|]. intros ->. by apply Hne.
  - exists (fun o => o). split; [by left|].
    intros r. cbn [apply_write]. by rewrite children_set_status.
Qed.

Lemma apply_write_status o :
  ∃ f, status_effect f ∧ ∀ r, status (apply_write o r) = f (status r).
Proof.
  destruct o as [g k | g k x | x].
  - exists (fun x => x). split; [by left|]. intros r. cbn [apply_write].
    destruct (children g r !! k); [done|]. by rewrite status_set_children.
  - exists (fun x => x). split; [by left|]. intros r. cbn [apply_write].
    by rewrite status_set_children.
  - exists (fun _ => x). split; [right; by exists x|]. done.
Qed.

Lemma apply_writes_app os1 os2 r :
  apply_writes (os1 ++ os2) r = apply_writes os2 (apply_writes os1 r).
Proof. apply foldl_app. Qed.

Lemma apply_writes_cell os g k :
  ∃ f, cell_effect f ∧ ∀ r, children g (apply_writes os r) !! k = f (children g r !! k).
Proof.
  induction os as [|o os IH] using rev_ind.
  - exists (fun o => o). split; [by left|]. done.
  - destruct IH as (f1 & H1 & E1). destruct (apply_write_cell o g k) as (f2 & H2 & E2).
    exists (fun o => f2 (f1 o)). split; [by apply cell_effect_compose|].
    intros r. rewrite apply_writes_app. cbn. by rewrite E2, E1.
Qed.

Lemma apply_writes_status os :
  ∃ f, status_effect f ∧ ∀ r, status (apply_writes os r) = f (status r).
Proof.
  induction os as [|o os IH] using rev_ind.
  - exists (fun x => x). split; [by left|]. done.
  - destruct IH as (f1 & H1 & E1). destruct (apply_write_status o) as (f2 & H2 & E2).
    exists (fun x => f2 (f1 x)). split; [by apply status_effect_compose|].
    intros r. rewrite apply_writes_app. cbn. by rewrite E2, E1.
Qed.

(** Writing the same sequence again changes nothing. *)
Lemma apply_writes_idemp os r :
  apply_writes os (apply_writes os r) = apply_writes os r.
Proof.
  apply registry_eq.
  - intros g. apply map_eq. intros k.
    destruct (apply_writes_cell os g k) as (f & Hf & E).
    rewrite !E. by apply cell_effect_idemp.
  - destruct (apply_writes_status os) as (f & Hf & E).
    rewrite !E. by apply status_effect_idemp.
Qed.

End RegistryFacts.

(** ** Uniform computations *)

Section UniformFacts.
Context (P : string * string → Prop).

Lemma uniform_ret {A} (a : A) : uniform P (mret a : cycle A).
Proof. exists [], (Ok a). done. Qed.

Lemma uniform_lift {A} (x : result A) : uniform P (lift x).
Proof. exists [], x. done. Qed.

Lemma uniform_bind {A B} (m : cycle A) (f : A → cycle B) :
  uniform P m → (∀ a r, m r = (fst (m r), Ok a) → uniform P (f a)) →
  uniform P (m ≫= f).
Proof.
  intros (os & x & Hos & Hm) Hf. destruct x as [a | e].
  - destruct (Hf a (apply_writes os empty_registry)) as (os' & y & Hos' & Hfa).
    { by rewrite Hm. }
    exists (os ++ os'), y. split; [by apply Forall_app|]. intros r.
    unfold mbind, cycle_bind. rewrite Hm, Hfa. by rewrite apply_writes_app.
  - exists os, (Raise e). split; [done|].
    intros r. unfold mbind, cycle_bind. by rewrite Hm.
Qed.

Lemma uniform_gauge_labels g peer_id name :
  P (peer_id, PyVal.str name) → uniform P (gauge_labels g peer_id name).
Proof.
  intros HP.
  exists [Touch g (peer_id, PyVal.str name)], (Ok (peer_id, PyVal.str name)).
  split; [by repeat constructor|].
  intros r. unfold gauge_labels. cbn.
  by destruct (children g r !! (peer_id, PyVal.str name)).
Qed.

Lemma gauge_labels_returns g peer_id name r k :
  gauge_labels g peer_id name r = (fst (gauge_labels g peer_id name r), Ok k) →
  k = (peer_id, PyVal.str name).
Proof.
  unfold gauge_labels.
  destruct (children g r !! (peer_id, PyVal.str name)); cbn; congruence.
Qed.

Lemma uniform_child_set g k value : P k → uniform P (child_set g k value).
Proof.
  intros HP. unfold child_set. destruct (PyFloat.of_str value) as [x | e].
  - exists [Store g k x], (Ok tt). split; [by repeat constructor|done].
  - by exists [], (Raise e).
Qed.

Lemma uniform_status_set n : uniform P (status_set n).
Proof.
  exists [StoreStatus (PyFloat.of_nat n)], (Ok tt).
  split; [by repeat constructor|done].
Qed.

Lemma uniform_for_each {A} (body : A → cycle unit) l :
  (∀ x, x ∈ l → uniform P (body x)) → uniform P (for_each body l).
Proof.
  induction l as [|x l IH]; intros H; cbn [for_each].
  - apply uniform_ret.
  - apply uniform_bind.
    + apply H. by left.
    + intros _ _ _. apply IH. intros y Hy. apply H. by right.
Qed.

Lemma uniform_set_peer_gauges table p :
  (∀ name, resolve_client_name table p.(peer) = Ok name →
           P (p.(peer), PyVal.str name)) →
  uniform P (set_peer_gauges table p).
Proof.
  intros HP. unfold set_peer_gauges.
  apply uniform_bind; [apply uniform_lift|]. intros name r Hname.
  assert (P (peer p, PyVal.str name)) as Hk.
  { apply HP. unfold lift in Hname. congruence. }
  repeat (apply uniform_bind;
          [first [by apply uniform_gauge_labels | by apply uniform_child_set]|];
          first [intros k ? ->%gauge_labels_returns | intros _ _ _]).
  by apply uniform_child_set.
Qed.

Lemma uniform_update_metrics_try cfg w :
  (∀ peer_id name,
     resolve_client_name (clients_table_of cfg w) peer_id = Ok name →
     P (peer_id, PyVal.str name)) →
  uniform P (update_metrics_try cfg w).
Proof.
  intros HP. unfold update_metrics_try.
  apply uniform_bind; [apply uniform_lift|]. intros parsed_data _ _.
  destruct (is_nil parsed_data); [apply uniform_status_set|].
  apply uniform_bind; [|intros _ _ _; apply uniform_status_set].
  apply uniform_for_each. intros p _. apply uniform_set_peer_gauges. auto.
Qed.

(** Writes within [P] leave the children outside [P] alone. *)
Lemma apply_writes_outside os r g k :
  Forall (write_within P) os → ¬ P k →
  children g (apply_writes os r) !! k = children g r !! k.
Proof.
  intros Hos Hk. revert r. induction Hos as [|o os Ho _ IH]; intros r; [done|].
  cbn [apply_writes foldl]. fold (apply_writes os (apply_write o r)). rewrite IH.
  destruct o as [g' k' | g' k' x | x]; cbn [apply_write write_within] in *.
  - destruct (children g' r !! k'); [done|].
    rewrite children_set_children. case_decide; [|done]. subst g'.
    apply lookup_insert_ne. by intros ->.
  - rewrite children_set_children. case_decide; [|done]. subst g'.
    apply lookup_insert_ne. by intros ->.
  - by rewrite children_set_status.
Qed.

End UniformFacts.

(** ** The status gauge in a cycle *)

Section StatusFacts.

Lemma keeps_status_lift {A} (x : result A) : keeps_status (lift x).
Proof. done. Qed.

Lemma keeps_status_ret {A} (a : A) : keeps_status (mret a : cycle A).
Proof. done. Qed.

Lemma keeps_status_bind {A B} (m : cycle A) (f : A → cycle B) :
  keeps_status m → (∀ a, keeps_status (f a)) → keeps_status (m ≫= f).
Proof.
  intros Hm Hf r. unfold mbind, cycle_bind.
  specialize (Hm r). destruct (m r) as [r' [a | e]]; cbn in *.
  - by rewrite Hf.
  - done.
Qed.

Lemma keeps_status_gauge_labels g peer_id name :
  keeps_status (gauge_labels g peer_id name).
Proof.
  intros r. unfold gauge_labels.
  destruct (children g r !! (peer_id, PyVal.str name)); cbn; [done|].
  apply status_set_children.
Qed.

Lemma keeps_status_child_set g k value : keeps_status (child_set g k value).
Proof.
  intros r. unfold child_set. destruct (PyFloat.of_str value); cbn; [|done].
  apply status_set_children.
Qed.

Lemma keeps_status_set_peer_gauges table p :
  keeps_status (set_peer_gauges table p).
Proof.
  unfold set_peer_gauges.
  repeat (apply keeps_status_bind; [|intros ?]);
    auto using keeps_status_lift, keeps_status_gauge_labels, keeps_status_child_set.
Qed.

Lemma keeps_status_for_each {A} (body : A → cycle unit) l :
  (∀ x, keeps_status (body x)) → keeps_status (for_each body l).
Proof.
  intros H. induction l as [|x l IH]; cbn [for_each].
  - apply keeps_status_ret.
  - apply keeps_status_bind; auto.
Qed.

End StatusFacts.

(** C8: a second cycle, run on the registry the first one left and with the
    same command output and the same table file, leaves every gauge as the
    first one left it, and ends as the first one did: gauges are set, not
    added to. *)
Theorem update_metrics_idempotent cfg w r :
  update_metrics cfg w (update_metrics cfg w r) = update_metrics cfg w r ∧
  update_metrics_caught cfg w (update_metrics cfg w r) = update_metrics_caught cfg w r.
Proof.
  destruct (uniform_update_metrics_try (fun _ => True) cfg w) as (os & x & _ & H);
    [done|].
  unfold update_metrics, update_metrics_caught. rewrite !H. cbn.
  split; [apply apply_writes_idemp | done].
Qed.

(** Two peers, the second of them twice: after one cycle or after two, each
    child holds the value of the last line that names it. *)
Example update_metrics_twice :
  let w := world_of ("header line" +:+ nl +:+ "bla P1 x x x 5 100 200" +:+ nl
                     +:+ "bla P2 x x x 6 300 400" +:+ nl
                     +:+ "bla P2 x x x 7 500 600")
             (Ok (JArr [])) (Ok tt) in
  let r1 := update_metrics default_config w empty_registry in
  let r2 := update_metrics default_config w r1 in
  r1.(sent_bytes_metric) !! ("P1", "unidentified") = Some (PyFloat.Finite false 200 0) ∧
  r1.(sent_bytes_metric) !! ("P2", "unidentified") = Some (PyFloat.Finite false 600 0) ∧
  r2.(sent_bytes_metric) !! ("P1", "unidentified") = Some (PyFloat.Finite false 200 0) ∧
  r2.(sent_bytes_metric) !! ("P2", "unidentified") = Some (PyFloat.Finite false 600 0) ∧
  status r1 = PyFloat.of_nat 1 ∧ status r2 = PyFloat.of_nat 1.
Proof. vm_compute. repeat split. Qed.

(** The end-to-end scenario: one peer and an empty table. *)
Example update_metrics_one_peer :
  let w := world_of one_peer_report (Ok (JArr [])) (Ok tt) in
  let r := update_metrics default_config w empty_registry in
  r.(sent_bytes_metric) !! ("P1", "unidentified") = Some (PyFloat.Finite false 200 0) ∧
  r.(received_bytes_metric) !! ("P1", "unidentified") = Some (PyFloat.Finite false 100 0) ∧
  r.(latest_handshake_metric) !! ("P1", "unidentified") = Some (PyFloat.Finite false 5 0) ∧
  status r = PyFloat.of_nat 1.
Proof. vm_compute. repeat split. Qed.

(** With a flag whose truth value is false, a cycle writes to no child
    whose [client_name] label is not ["unidentified"], whatever the table
    file holds. *)
Lemma falsy_flag_unidentified cfg w r g k :
  truthy cfg.(clients_table_enabled) = false →
  children g (update_metrics cfg w r) !! k ≠ children g r !! k →
  k.2 = "unidentified".
Proof.
  intros Hflag Hk.
  destruct (uniform_update_metrics_try (fun k => k.2 = "unidentified") cfg w)
    as (os & x & Hos & H).
  { intros peer_id name. unfold clients_table_of. rewrite Hflag. cbn.
    by intros [= <-]. }
  unfold update_metrics in Hk. rewrite H in Hk. cbn in Hk.
  destruct (decide (k.2 = "unidentified")) as [|Hne]; [done|].
  by rewrite (apply_writes_outside _ os r g k Hos Hne) in Hk.
Qed.

(** The flag is false for [bool] only when the variable is set to the empty
    string: the default ['false'] is a non-empty string. *)
Lemma exporter_config_flag env :
  truthy (exporter_config env).(clients_table_enabled) = false
  ↔ env "AWG_EXPORTER_CLIENTS_TABLE_ENABLED" = Some EmptyString.
Proof.
  unfold exporter_config, config_get. cbn.
  destruct (env "AWG_EXPORTER_CLIENTS_TABLE_ENABLED") as [[|c s]|]; cbn;
    split; congruence.
Qed.

(** C1: with the default configuration the flag is the string ['false'],
    which [bool] takes for true; the cycle reads the table file, and the
    peer the file names gets that name, not ["unidentified"]. *)
Theorem default_flag_reads_table :
  let w := world_of one_peer_report
             (Ok (JArr [entry_json {| client_id := "P1"; client_name := "alice" |}]))
             (Ok tt) in
  let r := update_metrics default_config w empty_registry in
  default_config.(clients_table_enabled) = CStr "false" ∧
  truthy default_config.(clients_table_enabled) = true ∧
  parse (run_bin w (awg_show_command default_config))
  = Ok [{| peer := "P1"; latest_handshake := "5"; received := "100"; sent := "200" |}] ∧
  update_metrics_caught default_config w empty_registry = None ∧
  r.(sent_bytes_metric) !! ("P1", "alice") = Some (PyFloat.Finite false 200 0) ∧
  r.(received_bytes_metric) !! ("P1", "alice") = Some (PyFloat.Finite false 100 0) ∧
  r.(latest_handshake_metric) !! ("P1", "alice") = Some (PyFloat.Finite false 5 0) ∧
  r.(sent_bytes_metric) !! ("P1", "unidentified") = None ∧
  status r = PyFloat.of_nat 1.
Proof. vm_compute. repeat split. Qed.

(** C7: when [parse] returns the empty list, the cycle sets the status
    gauge to 0 and returns: the children of the three peer gauges are those
    it found, none added and none changed. *)
Theorem empty_report_sets_status_only cfg w r :
  parse (run_bin w (awg_show_command cfg)) = Ok [] →
  update_metrics_try cfg w r = (set_status (PyFloat.of_nat 0) r, Ok tt) ∧
  status (update_metrics cfg w r) = PyFloat.of_nat 0 ∧
  ∀ g, children g (update_metrics cfg w r) = children g r.
Proof.
  intros H.
  assert (update_metrics_try cfg w r = (set_status (PyFloat.of_nat 0) r, Ok tt)) as E.
  { unfold update_metrics_try, mbind, cycle_bind, lift. by rewrite H. }
  split; [exact E|]. unfold update_metrics. rewrite E. cbn. split; [done|].
  intros g. apply children_set_status.
Qed.

Lemma empty_report_sets_status_only_witness :
  let w := world_of EmptyString (Raise OSError) (Ok tt) in
  let r := set_status (PyFloat.of_nat 1) empty_registry in
  parse (run_bin w (awg_show_command default_config)) = Ok [] ∧
  status (update_metrics default_config w r) = PyFloat.of_nat 0.
Proof.
  intros w r.
  assert (parse (run_bin w (awg_show_command default_config)) = Ok []) as H
    by (vm_compute; reflexivity).
  split; [exact H|].
  exact (proj1 (proj2 (empty_report_sets_status_only default_config w r H))).
Defined.

(** The [try] block, case by case. *)
Lemma update_metrics_try_cases cfg w r :
  update_metrics_try cfg w r
  = match parse (run_bin w (awg_show_command cfg)) with
    | Raise e => (r, Raise e)
    | Ok parsed_data =>
        if is_nil parsed_data then (set_status (PyFloat.of_nat 0) r, Ok tt)
        else
          match for_each (set_peer_gauges (clients_table_of cfg w)) parsed_data r with
          | (r', Ok _) => (set_status (PyFloat.of_nat 1) r', Ok tt)
          | (r', Raise e) => (r', Raise e)
          end
    end.
Proof.
  unfold update_metrics_try, mbind, cycle_bind, lift.
  destruct (parse (run_bin w (awg_show_command cfg))) as [parsed_data | e]; [|done].
  destruct (is_nil parsed_data); done.
Qed.




(** ** main_loop *)




(** * Further properties *)

(** ** Strings *)

Module PyStrMore.
Import PyStr.

Lemma lstrip_idemp s : lstrip (lstrip s) = lstrip s.
Proof.
  induction s as [|c r IH]; [done|].
  cbn [lstrip]. destruct (is_space c) eqn:E; [done|]. cbn [lstrip]. by rewrite E.
Qed.

Lemma rstrip_idemp s : rstrip (rstrip s) = rstrip s.
Proof.
  induction s as [|c r IH]; [done|].
  cbn [rstrip]. destruct (is_space c && is_empty (rstrip r)) eqn:E; [done|].
  cbn [rstrip]. by rewrite IH, E.
Qed.

Lemma rstrip_fixed_tail c r : rstrip (String c r) = String c r → rstrip r = r.
Proof.
  cbn [rstrip]. destruct (is_space c && is_empty (rstrip r)); [done|]. by intros [= ->].
Qed.

Lemma rstrip_lstrip_fixed s : rstrip s = s → rstrip (lstrip s) = lstrip s.
Proof.
  induction s as [|c r IH]; [done|]. intros H.
  cbn [lstrip]. destruct (is_space c); [|done].
  apply IH. by apply rstrip_fixed_tail in H.
Qed.

Lemma strip_idemp s : strip (strip s) = strip s.
Proof.
  unfold strip.
  rewrite (rstrip_lstrip_fixed (rstrip s)) by apply rstrip_idemp.
  apply lstrip_idemp.
Qed.

Lemma rstrip_all_space b : all_space b = true → rstrip b = EmptyString.
Proof.
  induction b as [|c r IH]; [done|]. cbn [all_space rstrip].
  intros [Hc Hr]%andb_true_iff. by rewrite IH, Hc.
Qed.

Lemma append_cons c r s : String c r +:+ s = String c (r +:+ s).
Proof. reflexivity. Qed.

Lemma append_nil s : EmptyString +:+ s = s.
Proof. reflexivity. Qed.

Lemma rstrip_app_space s b : all_space b = true → rstrip (s +:+ b) = rstrip s.
Proof.
  intros Hb. induction s as [|c r IH].
  - rewrite append_nil. by apply rstrip_all_space.
  - rewrite append_cons. cbn [rstrip]. by rewrite IH.
Qed.

Lemma rstrip_space_app a s :
  all_space a = true →
  rstrip (a +:+ s) = if is_empty (rstrip s) then EmptyString else a +:+ rstrip s.
Proof.
  intros Ha. induction a as [|c a IH].
  - rewrite append_nil. by destruct (rstrip s).
  - cbn [all_space] in Ha. apply andb_true_iff in Ha as [Hc Ha].
    rewrite append_cons. cbn [rstrip]. rewrite IH by done. rewrite Hc.
    destruct (rstrip s) as [|d t]; [done|]. cbn [is_empty].
    rewrite append_cons. by destruct a.
Qed.

Lemma lstrip_space_app a s : all_space a = true → lstrip (a +:+ s) = lstrip s.
Proof.
  induction a as [|c a IH]; [done|]. cbn [all_space].
  intros [Hc Ha]%andb_true_iff. rewrite append_cons. cbn [lstrip]. rewrite Hc.
  by apply IH.
Qed.

Lemma strip_surrounded a s b :
  all_space a = true → all_space b = true → strip (a +:+ s +:+ b) = strip s.
Proof.
  intros Ha Hb. unfold strip.
  rewrite rstrip_space_app, rstrip_app_space by done.
  destruct (rstrip s) as [|d t] eqn:E; [done|]. cbn [is_empty].
  by apply lstrip_space_app.
Qed.

Lemma push_char_fields c l :
  is_space c = false → Forall is_field l → Forall is_field (push_char c l).
Proof.
  intros Hc Hl. destruct Hl as [|p ps [Hp Hs] Hps]; cbn [push_char].
  - repeat constructor; [done|]. cbn [has_space]. by rewrite Hc.
  - constructor; [|done]. split; [done|]. cbn [has_space]. by rewrite Hc, Hs.
Qed.

Lemma split_fields s : Forall is_field (split s).
Proof.
  induction s as [|c r IH]; [constructor|].
  cbn [split]. destruct (is_space c) eqn:Hc; [done|].
  destruct r as [|c2 r2].
  - repeat constructor; [done|]. cbn [has_space]. by rewrite Hc.
  - destruct (is_space c2).
    + constructor; [|done]. split; [done|]. cbn [has_space]. by rewrite Hc.
    + by apply push_char_fields.
Qed.

Lemma split_on_nonempty sep s : split_on sep s ≠ [].
Proof.
  destruct s as [|c r]; [done|]. cbn [split_on].
  destruct (Ascii.eqb c sep); [done|]. by destruct (split_on sep r).
Qed.

Lemma join_push_char sep c l :
  l ≠ [] → PyVal.join sep (push_char c l) = String c (PyVal.join sep l).
Proof. destruct l as [|p [|q ps]]; done. Qed.

Lemma join_cons sep x l :
  l ≠ [] → PyVal.join sep (x :: l) = x +:+ sep +:+ PyVal.join sep l.
Proof. by destruct l. Qed.

Lemma join_split_on sep s :
  PyVal.join (String sep EmptyString) (split_on sep s) = s.
Proof.
  induction s as [|c r IH]; [done|]. cbn [split_on].
  destruct (Ascii.eqb c sep) eqn:E.
  - apply Ascii.eqb_eq in E as ->.
    rewrite join_cons by apply split_on_nonempty. by rewrite IH.
  - rewrite join_push_char by apply split_on_nonempty. by rewrite IH.
Qed.

Lemma split_on_pieces sep s :
  Forall (fun p => PyVal.contains sep p = false) (split_on sep s).
Proof.
  induction s as [|c r IH]; [by repeat constructor|]. cbn [split_on].
  destruct (Ascii.eqb c sep) eqn:E; [by constructor|].
  destruct IH as [|p ps Hp Hps]; cbn [push_char].
  - repeat constructor. cbn. rewrite Ascii.eqb_sym, E. done.
  - constructor; [|done]. cbn. by rewrite Ascii.eqb_sym, E.
Qed.

End PyStrMore.

(** ** More on parse and run_bin *)

(** X1: [parse] ignores whitespace, blank lines included, before and after
    the report: the header is the first line that has something on it. *)
Theorem parse_surrounding_whitespace a text b :
  all_space a = true → all_space b = true →
  parse (a +:+ text +:+ b) = parse text.
Proof.
  intros Ha Hb. unfold parse. by rewrite PyStrMore.strip_surrounded.
Qed.

Lemma parse_surrounding_whitespace_witness :
  parse ((nl +:+ space +:+ nl) +:+ one_peer_report +:+ (nl +:+ nl))
  = parse one_peer_report.
Proof.
  apply (parse_surrounding_whitespace (nl +:+ space +:+ nl) one_peer_report (nl +:+ nl)).
  - vm_compute. reflexivity.
  - vm_compute. reflexivity.
Defined.

Lemma parse_lines_Ok_readable lines peers recs :
  parse_lines lines peers = Ok recs →
  Forall (fun line => 8 ≤ length (PyStr.split line)) (filter accepted lines).
Proof.
  revert peers. induction lines as [|line rest IH]; intros peers; [constructor|].
  destruct (parse_lines_cases line) as [Hn | [[Ha Hlt] | H8]].
  - rewrite parse_lines_rejected, filter_cons_False by done. apply IH.
  - by rewrite parse_lines_index_error.
  - rewrite parse_lines_accepted by done.
    rewrite filter_cons_True by (unfold accepted; lia).
    intros H. constructor; [done|]. by eapply IH.
Qed.

Lemma not_unreadable_total lines :
  ¬ Exists unreadable lines →
  Forall (fun line => accepted line → 8 ≤ length (PyStr.split line)) lines.
Proof.
  intros H. apply Forall_forall. intros line Hin Ha.
  destruct (decide (8 ≤ length (PyStr.split line))) as [|Hlt]; [done|].
  exfalso. apply H. apply Exists_exists. exists line. split; [done|].
  split; [done|lia].
Qed.

(** X2: the only exception [parse] raises is [IndexError], and it raises it
    exactly when some line after the header has 6 or 7 fields; otherwise it
    returns. *)
Theorem parse_raises_iff text :
  (∀ e, parse text = Raise e → e = IndexError) ∧
  (parse text = Raise IndexError ↔ Exists unreadable (peer_lines text)) ∧
  (¬ Exists unreadable (peer_lines text) → ∃ recs, parse text = Ok recs).
Proof.
  assert (¬ Exists unreadable (peer_lines text) →
          parse text = Ok (map record_of_line (filter accepted (peer_lines text)))) as Hok.
  { intros H. unfold parse. fold (peer_lines text).
    by rewrite parse_lines_total by by apply not_unreadable_total. }
  destruct (decide (Exists unreadable (peer_lines text))) as [Hbad | Hgood].
  - pose proof (parse_raises text Hbad) as E. rewrite E.
    split; [by intros e [= <-]|]. split; [done|]. done.
  - rewrite (Hok Hgood). split; [done|]. split; [|eauto]. split; [done|]. done.
Qed.

Lemma parse_raises_iff_witness :
  parse ("header line" +:+ nl +:+ "bla P1 x x x 5 100") = Raise IndexError ∧
  ∃ recs, parse one_peer_report = Ok recs.
Proof.
  split.
  - apply (proj2 (proj1 (proj2 (parse_raises_iff _)))).
    replace (peer_lines ("header line" +:+ nl +:+ "bla P1 x x x 5 100"))
      with ["bla P1 x x x 5 100"] by (vm_compute; reflexivity).
    constructor. split; vm_compute; lia.
  - apply (proj2 (proj2 (parse_raises_iff one_peer_report))).
    replace (peer_lines one_peer_report) with ["bla P1 x x x 5 100 200"]
      by (vm_compute; reflexivity).
    intros H. apply Exists_cons in H as [[_ H] | H].
    + vm_compute in H. lia.
    + by apply Exists_nil in H.
Defined.

Lemma record_of_line_is_fields line :
  8 ≤ length (PyStr.split line) → record_fields (record_of_line line).
Proof.
  intros H. pose proof (PyStrMore.split_fields line) as Hf.
  destruct (record_of_line_fields line H) as (H1 & H5 & H6 & H7).
  rewrite Forall_lookup in Hf.
  repeat split; eapply Hf; eauto.
Qed.

(** X3: every value of every record [parse] returns is a field of a line: it
    is not empty and has no whitespace in it.  So no peer id is empty. *)
Theorem parse_records_are_fields text recs :
  parse text = Ok recs → Forall record_fields recs.
Proof.
  intros H. unfold parse in H. fold (peer_lines text) in H.
  pose proof (parse_lines_Ok_readable _ _ _ H) as Hr.
  apply parse_lines_Ok in H. cbn [app] in H. subst recs.
  apply Forall_fmap. eapply Forall_impl; [exact Hr|].
  intros line. apply record_of_line_is_fields.
Qed.

Lemma parse_records_are_fields_witness :
  Forall record_fields
    [{| peer := "P1"; latest_handshake := "5"; received := "100"; sent := "200" |}].
Proof.
  apply (parse_records_are_fields one_peer_report). vm_compute. reflexivity.
Defined.

(** X4: what [run_bin] returns has no whitespace at either end, so the
    [strip] of [parse] leaves it as it is; and it is the empty string when
    the command could not be run. *)
Theorem run_bin_stripped w command :
  PyStr.strip (run_bin w command) = run_bin w command ∧
  parse (run_bin w command)
  = parse_lines (tail (PyStr.splitlines (run_bin w command))) [] ∧
  (∀ e, w.(subprocess_run) command = Raise e → run_bin w command = EmptyString).
Proof.
  assert (PyStr.strip (run_bin w command) = run_bin w command) as E.
  { unfold run_bin. destruct (subprocess_run w command); [|done].
    apply PyStrMore.strip_idemp. }
  split; [exact E|]. split.
  - unfold parse. by rewrite E.
  - intros e He. unfold run_bin. by rewrite He.
Qed.

Lemma run_bin_stripped_witness :
  run_bin no_binary_world ["awg"; "show"] = EmptyString.
Proof.
  apply (proj2 (proj2 (run_bin_stripped _ ["awg"; "show"])) OSError). reflexivity.
Defined.

(** X5: the command of [Exporter.__init__] is the configured string cut at
    every space: joined by spaces it gives the string back, no argument has
    a space in it, and there is always a first argument (two spaces in a row
    give an empty argument). *)
Theorem awg_show_command_round_trip cfg :
  PyVal.join space (awg_show_command cfg) = cfg.(awg_executable) ∧
  Forall (fun arg => PyVal.contains " "%char arg = false) (awg_show_command cfg) ∧
  awg_show_command cfg ≠ [].
Proof.
  unfold awg_show_command. split; [apply PyStrMore.join_split_on|].
  split; [apply PyStrMore.split_on_pieces | apply PyStrMore.split_on_nonempty].
Qed.

Example awg_show_command_examples :
  awg_show_command default_config = ["awg"; "show"] ∧
  PyStr.split_on " "%char "awg  show all dump" = ["awg"; ""; "show"; "all"; "dump"].
Proof. vm_compute. done. Qed.

(** ** More on update_metrics *)

Section CycleFacts.

Lemma for_each_app {A} (body : A → cycle unit) l1 l2 r :
  for_each body (l1 ++ l2) r
  = match for_each body l1 r with
    | (r', Ok _) => for_each body l2 r'
    | (r', Raise e) => (r', Raise e)
    end.
Proof.
  revert r. induction l1 as [|x l1 IH]; intros r; [done|].
  cbn [app for_each]. unfold mbind, cycle_bind.
  destruct (body x r) as [r1 [[] | e]]; [apply IH | done].
Qed.

Lemma set_peer_gauges_raises table p e r :
  resolve_client_name table p.(peer) = Raise e →
  set_peer_gauges table p r = (r, Raise e).
Proof.
  intros H. unfold set_peer_gauges, mbind, cycle_bind, lift. by rewrite H.
Qed.

Lemma set_peer_gauges_Ok table p name xs xr xh r :
  resolve_client_name table p.(peer) = Ok name →
  record_values p xs xr xh →
  set_peer_gauges table p r
  = (store_peer (p.(peer), PyVal.str name) xs xr xh r, Ok tt).
Proof.
  intros Hn (Hs & Hr & Hh).
  unfold set_peer_gauges, mbind, cycle_bind, lift, gauge_labels, child_set.
  rewrite Hn, Hs, Hr, Hh. destruct r as [ms mr mh st]. cbn.
  destruct (ms !! _); cbn; destruct (mr !! _); cbn; destruct (mh !! _); cbn;
    unfold store_peer; cbn; by rewrite ?insert_insert_eq.
Qed.

Lemma for_each_ready table l r :
  Forall (peer_ready table) l →
  snd (for_each (set_peer_gauges table) l r) = Ok tt.
Proof.
  intros H. revert r. induction H as [|p l [[name Hn] (xs & xr & xh & Hv)] _ IH];
    intros r; [done|].
  cbn [for_each]. unfold mbind, cycle_bind.
  rewrite (set_peer_gauges_Ok _ _ _ _ _ _ _ Hn Hv). apply IH.
Qed.

(** The loop leaves alone the children of the peers it does not meet. *)
Lemma for_each_frame table l r g k :
  Forall (fun q => q.(peer) ≠ k.1) l →
  children g (fst (for_each (set_peer_gauges table) l r)) !! k = children g r !! k.
Proof.
  intros H.
  destruct (uniform_for_each (fun k' => k'.1 ≠ k.1) (set_peer_gauges table) l)
    as (os & x & Hos & E).
  { intros q Hq. apply uniform_set_peer_gauges. intros name _. cbn.
    rewrite Forall_forall in H. by apply H. }
  rewrite E. cbn. apply (apply_writes_outside _ os r g k Hos). cbn. by intros [].
Qed.

Lemma children_store_peer g k xs xr xh r :
  children g (store_peer k xs xr xh r) !! k
  = Some match g with SentBytes => xs | ReceivedBytes => xr | LatestHandshake => xh end.
Proof. destruct g; cbn; apply lookup_insert_eq. Qed.

End CycleFacts.

(** X6: when the command cannot be run (the binary is missing, it exits
    with an error, ...), the cycle sets the status gauge to 0, raises nothing
    and leaves every peer gauge as it is. *)
Theorem command_failure_sets_status_0 cfg w r e :
  w.(subprocess_run) (awg_show_command cfg) = Raise e →
  update_metrics_try cfg w r = (set_status (PyFloat.of_nat 0) r, Ok tt).
Proof.
  intros H. rewrite update_metrics_try_cases. unfold run_bin. rewrite H.
  reflexivity.
Qed.

Lemma command_failure_sets_status_0_witness :
  update_metrics_try default_config no_binary_world empty_registry
  = (set_status (PyFloat.of_nat 0) empty_registry, Ok tt).
Proof.
  apply (command_failure_sets_status_0 default_config no_binary_world
           empty_registry OSError).
  reflexivity.
Defined.

(** X7: one peer line of 6 or 7 fields anywhere in the report makes the
    whole cycle end in [except] with [IndexError]: no gauge is written,
    not even for the well-formed lines, and the status gauge keeps its
    value. *)
Theorem unreadable_line_blocks_cycle cfg w r :
  Exists unreadable (peer_lines (run_bin w (awg_show_command cfg))) →
  update_metrics cfg w r = r ∧
  update_metrics_caught cfg w r = Some IndexError.
Proof.
  intros H. apply parse_raises in H.
  unfold update_metrics, update_metrics_caught.
  rewrite update_metrics_try_cases, H. done.
Qed.

Lemma unreadable_line_blocks_cycle_witness :
  let w := world_of (one_peer_report +:+ nl +:+ "bla P2 x x x 6 300")
             (Raise OSError) (Ok tt) in
  update_metrics default_config w empty_registry = empty_registry ∧
  update_metrics_caught default_config w empty_registry = Some IndexError.
Proof.
  intros w. apply (unreadable_line_blocks_cycle default_config w empty_registry).
  replace (peer_lines (run_bin w (awg_show_command default_config)))
    with ["bla P1 x x x 5 100 200"; "bla P2 x x x 6 300"]
    by (vm_compute; reflexivity).
  right. left. split; vm_compute; lia.
Defined.

(** X8: the value of the status gauge after a cycle: the old value when the
    cycle ended in [except], 0 when the report had no peer, 1 otherwise.  So
    a status that is 0 or 1 stays 0 or 1. *)
Theorem status_after_cycle cfg w r :
  status (update_metrics cfg w r)
  = match update_metrics_caught cfg w r, parse (run_bin w (awg_show_command cfg)) with
    | Some _, _ => status r
    | None, Ok [] => PyFloat.of_nat 0
    | None, _ => PyFloat.of_nat 1
    end.
Proof.
  unfold update_metrics, update_metrics_caught. rewrite update_metrics_try_cases.
  destruct (parse (run_bin w (awg_show_command cfg))) as [[|p peers] | e]; [done| |done].
  cbn [is_nil].
  pose proof (keeps_status_for_each (set_peer_gauges (clients_table_of cfg w))
                (p :: peers) (keeps_status_set_peer_gauges _) r) as Hs.
  destruct (for_each _ (p :: peers) r) as [r' [[] | e]]; done.
Qed.

(** X9: a cycle removes no child: a label pair that has a value before a
    cycle has one after it, whatever the report says (peers that left the
    report stay in the registry). *)
Theorem cycle_keeps_children cfg w r g k :
  is_Some (children g r !! k) →
  is_Some (children g (update_metrics cfg w r) !! k).
Proof.
  intros [v Hv].
  destruct (uniform_update_metrics_try (fun _ => True) cfg w) as (os & x & _ & E);
    [done|].
  unfold update_metrics. rewrite E. cbn.
  destruct (apply_writes_cell os g k) as (f & Hf & Ef). rewrite Ef, Hv.
  destruct Hf as [Hf | [Hf | [y Hf]]]; rewrite Hf; eauto.
Qed.

Lemma cycle_keeps_children_witness :
  is_Some (children SentBytes
             (update_metrics default_config no_binary_world
                (store_peer ("P9", "gone") (PyFloat.of_nat 1) (PyFloat.of_nat 2)
                   (PyFloat.of_nat 3) empty_registry))
           !! ("P9", "gone")).
Proof.
  apply (cycle_keeps_children default_config no_binary_world).
  exists (PyFloat.of_nat 1). vm_compute. reflexivity.
Defined.

(** X10: a cycle changes no child of a peer that is not in its report: with
    the records [parse] returned, a label pair whose peer id is the id of
    none of them has after the cycle what it had before. *)
Theorem cycle_frame cfg w r peers g k :
  parse (run_bin w (awg_show_command cfg)) = Ok peers →
  Forall (fun q => q.(peer) ≠ k.1) peers →
  children g (update_metrics cfg w r) !! k = children g r !! k.
Proof.
  intros Hp Hk. unfold update_metrics. rewrite update_metrics_try_cases, Hp.
  destruct (is_nil peers); [cbn [fst]; by rewrite children_set_status|].
  pose proof (for_each_frame (clients_table_of cfg w) peers r g k Hk) as Hf.
  destruct (for_each _ peers r) as [r' [[] | e]]; cbn in *;
    by rewrite ?children_set_status.
Qed.

Lemma cycle_frame_witness :
  let w := world_of one_peer_report (Raise OSError) (Ok tt) in
  let r := store_peer ("P9", "gone") (PyFloat.of_nat 1) (PyFloat.of_nat 2)
             (PyFloat.of_nat 3) empty_registry in
  children SentBytes (update_metrics default_config w r) !! ("P9", "gone")
  = children SentBytes r !! ("P9", "gone").
Proof.
  intros w r.
  apply (cycle_frame default_config w r
           [{| peer := "P1"; latest_handshake := "5"; received := "100"; sent := "200" |}]).
  - vm_compute. reflexivity.
  - constructor; [|constructor]. cbn. discriminate.
Defined.

(** ** Cycles that succeed, and tables of the wrong shape *)

Section SuccessFacts.

Lemma set_peer_gauges_ready table p r r' :
  set_peer_gauges table p r = (r', Ok tt) → peer_ready table p.
Proof.
  unfold set_peer_gauges, mbind, cycle_bind, lift, gauge_labels, child_set, peer_ready,
    record_values.
  destruct (resolve_client_name table (peer p)) as [name | e]; [|done].
  destruct (PyFloat.of_str (sent p)) as [xs | e];
    [|by destruct (children SentBytes r !! _)].
  destruct (PyFloat.of_str (received p)) as [xr | e];
    [|by destruct (children SentBytes r !! _), (children ReceivedBytes _ !! _)].
  destruct (PyFloat.of_str (latest_handshake p)) as [xh | e];
    [|by destruct (children SentBytes r !! _), (children ReceivedBytes _ !! _),
           (children LatestHandshake _ !! _)].
  intros _. split; [by exists name | by exists xs, xr, xh].
Qed.

Lemma for_each_Ok_ready table l r r' :
  for_each (set_peer_gauges table) l r = (r', Ok tt) → Forall (peer_ready table) l.
Proof.
  revert r. induction l as [|p l IH]; intros r; [constructor|].
  cbn [for_each]. unfold mbind, cycle_bind.
  destruct (set_peer_gauges table p r) as [r1 [[] | e]] eqn:E; [|done].
  intros H. constructor; [by eapply set_peer_gauges_ready | by eapply IH].
Qed.

Lemma table_raises_resolve table e peer_id :
  table_raises table e → resolve_client_name table peer_id = Raise e.
Proof.
  destruct table as [| b | t | s | items | members]; cbn.
  - by intros ->.
  - by intros ->.
  - by intros ->.
  - intros [Hs ->]. by destruct s.
  - destruct items as [|client items]; [done|]. intros H.
    unfold resolve_client_name. cbn. by rewrite H.
  - intros [Hm ->]. by destruct members.
Qed.

End SuccessFacts.

(** X11: a cycle whose report has records ends without an exception exactly
    when every record is ready: its peer id resolves in the table, and its
    [sent], [received] and [latest_handshake] values are floats. *)
Theorem cycle_succeeds_iff cfg w r peers :
  parse (run_bin w (awg_show_command cfg)) = Ok peers →
  (update_metrics_caught cfg w r = None
   ↔ Forall (peer_ready (clients_table_of cfg w)) peers).
Proof.
  intros Hp. unfold update_metrics_caught. rewrite update_metrics_try_cases, Hp.
  destruct peers as [|p peers]; [cbn; split; [constructor | done]|].
  cbn [is_nil]. split.
  - destruct (for_each _ (p :: peers) r) as [r' [[] | e]] eqn:E; [|done].
    intros _. by eapply for_each_Ok_ready.
  - intros H. pose proof (for_each_ready _ _ r H) as Hok.
    destruct (for_each _ (p :: peers) r) as [r' [[] | e]]; [done|]. by cbn in Hok.
Qed.

Lemma cycle_succeeds_iff_witness :
  update_metrics_caught default_config
    (world_of bad_second_peer_report (Raise OSError) (Ok tt)) empty_registry ≠ None ∧
  update_metrics_caught default_config
    (world_of one_peer_report (Raise OSError) (Ok tt)) empty_registry = None.
Proof.
  split.
  - intros H.
    apply (proj1 (cycle_succeeds_iff default_config
                    (world_of bad_second_peer_report (Raise OSError) (Ok tt))
                    empty_registry
                    [{| peer := "P1"; latest_handshake := "5";
                        received := "100"; sent := "200" |};
                     {| peer := "P2"; latest_handshake := "6";
                        received := "300"; sent := "abc" |}]
                    ltac:(vm_compute; reflexivity))) in H.
    apply Forall_cons in H as [_ H]. apply Forall_cons in H as [[_ (xs & xr & xh & H)] _].
    destruct H as [H _]. vm_compute in H. discriminate H.
  - apply (proj2 (cycle_succeeds_iff default_config
                    (world_of one_peer_report (Raise OSError) (Ok tt)) empty_registry
                    [{| peer := "P1"; latest_handshake := "5";
                        received := "100"; sent := "200" |}]
                    ltac:(vm_compute; reflexivity))).
    constructor; [|constructor]. split.
    + exists (JStr "unidentified"). vm_compute. reflexivity.
    + exists (PyFloat.Finite false 200 0), (PyFloat.Finite false 100 0),
        (PyFloat.Finite false 5 0). repeat split; vm_compute; reflexivity.
Defined.

(** X12: after a cycle in which every record is ready, the status gauge is
    1 and, for each peer id, the three children under its labels hold the
    floats of the last record of the report with that id: when a peer is
    listed twice, the later line wins. *)
Theorem successful_cycle_values cfg w r peers :
  parse (run_bin w (awg_show_command cfg)) = Ok peers →
  peers ≠ [] →
  Forall (peer_ready (clients_table_of cfg w)) peers →
  status (update_metrics cfg w r) = PyFloat.of_nat 1 ∧
  ∀ before p after name xs xr xh g,
    peers = before ++ p :: after →
    Forall (fun q => q.(peer) ≠ p.(peer)) after →
    resolve_client_name (clients_table_of cfg w) p.(peer) = Ok name →
    record_values p xs xr xh →
    children g (update_metrics cfg w r) !! (p.(peer), PyVal.str name)
    = Some match g with
           | SentBytes => xs
           | ReceivedBytes => xr
           | LatestHandshake => xh
           end.
Proof.
  intros Hp Hne Hready. unfold update_metrics.
  rewrite update_metrics_try_cases, Hp.
  destruct peers as [|p0 peers0]; [done|]. cbn [is_nil].
  set (table := clients_table_of cfg w) in *.
  pose proof (for_each_ready table (p0 :: peers0) r Hready) as Hok.
  destruct (for_each (set_peer_gauges table) (p0 :: peers0) r) as [r' res] eqn:E.
  cbn in Hok. subst res. cbn [fst]. split; [done|].
  intros before p after name xs xr xh g Hsplit Hafter Hname Hvals.
  rewrite children_set_status.
  rewrite Hsplit, for_each_app in E.
  destruct (for_each (set_peer_gauges table) before r) as [r1 [[] | e]]; [|done].
  cbn [for_each] in E. unfold mbind, cycle_bind in E.
  rewrite (set_peer_gauges_Ok _ _ _ _ _ _ _ Hname Hvals) in E.
  pose proof (for_each_frame table after
                (store_peer (peer p, PyVal.str name) xs xr xh r1) g
                (peer p, PyVal.str name) Hafter) as Hf.
  rewrite E in Hf. cbn [fst] in Hf. rewrite Hf. apply children_store_peer.
Qed.

Lemma successful_cycle_values_witness :
  let w := world_of ("header line" +:+ nl +:+ "bla P2 x x x 6 300 400" +:+ nl
                     +:+ "bla P2 x x x 7 500 600")
             (Ok (JArr [])) (Ok tt) in
  children SentBytes (update_metrics default_config w empty_registry)
    !! ("P2", "unidentified")
  = Some (PyFloat.Finite false 600 0).
Proof.
  intros w.
  pose (p1 := {| peer := "P2"; latest_handshake := "6"; received := "300"; sent := "400" |}).
  pose (p2 := {| peer := "P2"; latest_handshake := "7"; received := "500"; sent := "600" |}).
  assert (peer_ready (clients_table_of default_config w) p1) as H1.
  { split; [exists (JStr "unidentified"); vm_compute; reflexivity|].
    exists (PyFloat.Finite false 400 0), (PyFloat.Finite false 300 0),
      (PyFloat.Finite false 6 0). repeat split; vm_compute; reflexivity. }
  assert (peer_ready (clients_table_of default_config w) p2) as H2.
  { split; [exists (JStr "unidentified"); vm_compute; reflexivity|].
    exists (PyFloat.Finite false 600 0), (PyFloat.Finite false 500 0),
      (PyFloat.Finite false 7 0). repeat split; vm_compute; reflexivity. }
  assert (Forall (peer_ready (clients_table_of default_config w)) [p1; p2]) as HF
    by (constructor; [exact H1 | constructor; [exact H2 | constructor]]).
  apply (proj2 (successful_cycle_values default_config w empty_registry [p1; p2]
                  ltac:(vm_compute; reflexivity) ltac:(discriminate) HF)
           [p1] p2 [] (JStr "unidentified") (PyFloat.Finite false 600 0)
           (PyFloat.Finite false 500 0) (PyFloat.Finite false 7 0) SentBytes).
  - reflexivity.
  - constructor.
  - vm_compute. reflexivity.
  - repeat split; vm_compute; reflexivity.
Defined.

(** X13: a table file that parses but has the wrong shape (not a list, or a
    list whose first item has no ["clientId"]) is returned as it is by
    [read_clients_table]; then the scan raises for the first record, and a
    cycle with records writes no gauge at all. *)
Theorem wrong_shape_table_blocks_cycle cfg w r p peers e :
  parse (run_bin w (awg_show_command cfg)) = Ok (p :: peers) →
  table_raises (clients_table_of cfg w) e →
  update_metrics cfg w r = r ∧ update_metrics_caught cfg w r = Some e.
Proof.
  intros Hp Ht. unfold update_metrics, update_metrics_caught.
  rewrite update_metrics_try_cases, Hp. cbn [is_nil for_each].
  unfold mbind, cycle_bind.
  rewrite (set_peer_gauges_raises _ _ e) by by apply table_raises_resolve.
  done.
Qed.

Lemma wrong_shape_table_blocks_cycle_witness :
  let w := world_of one_peer_report
             (Ok (JArr [JObj [("userData", JObj [("clientName", JStr "alice")])]]))
             (Ok tt) in
  update_metrics default_config w empty_registry = empty_registry ∧
  update_metrics_caught default_config w empty_registry = Some KeyError.
Proof.
  intros w.
  apply (wrong_shape_table_blocks_cycle default_config w empty_registry
           {| peer := "P1"; latest_handshake := "5"; received := "100"; sent := "200" |}
           [] KeyError).
  - vm_compute. reflexivity.
  - vm_compute. reflexivity.
Defined.

(** With the configuration of [__main__], the table file is read for every
    value of [AWG_EXPORTER_CLIENTS_TABLE_ENABLED] but the empty string, and
    when the variable is not set. *)
Lemma table_switch env w :
  clients_table_of (exporter_config env) w
  = match env "AWG_EXPORTER_CLIENTS_TABLE_ENABLED" with
    | Some EmptyString => JArr []
    | _ => read_clients_table w (exporter_config env).(clients_table_file)
    end.
Proof.
  unfold clients_table_of, exporter_config, config_get. cbn.
  by destruct (env "AWG_EXPORTER_CLIENTS_TABLE_ENABLED") as [[|c s]|].
Qed.

(** ** The numbers of a report *)

Section DecimalFacts.









End DecimalFacts.



Example decimal_example : decimal [0; 1; 7; 0; 3]%N = "01703".
Proof. reflexivity. Qed.

(** ** More on main_loop *)

Section LoopFacts.

Lemma count_app p evs1 evs2 : count p (evs1 ++ evs2) = count p evs1 + count p evs2.
Proof. induction evs1 as [|e evs1 IH]; cbn [app count]; [done|]. rewrite IH. lia. Qed.

Lemma events_prepend evs run : events_of (prepend evs run) = evs ++ events_of run.
Proof. by destruct run as [[evs' r] e]. Qed.

Lemma registry_prepend evs run : registry_of (prepend evs run) = registry_of run.
Proof. by destruct run as [[evs' r] e]. Qed.

Lemma ending_prepend evs run : ending_of (prepend evs run) = ending_of run.
Proof. by destruct run as [[evs' r] e]. Qed.

(** The iteration, case by case: the body of [try], then the handler. *)
Lemma while_true_step fuel cfg ws i r :
  while_true (S fuel) cfg ws i r
  = let r1 := update_metrics cfg (ws i) r in
    match after_update cfg (ws i) r1 with
    | (evs, Ok true) => (Updated :: evs, r1, Break)
    | (evs, Ok false) => prepend (Updated :: evs) (while_true fuel cfg ws (S i) r1)
    | (evs, Raise _) =>
        match time_sleep cfg.(scrape_interval) with
        | Ok _ =>
            prepend (Updated :: evs ++ [Slept cfg.(scrape_interval)])
              (while_true fuel cfg ws (S i) r1)
        | Raise e => (Updated :: evs, r1, Uncaught e)
        end
    end.
Proof. reflexivity. Qed.

(** What follows the cycle when the mode is not [oneshot] and the sleep
    returns: no [break], no exception that the handler does not absorb. *)
Lemma after_update_steady cfg w r1 :
  cfg.(ops_mode) ≠ "oneshot" →
  time_sleep cfg.(scrape_interval) = Ok tt →
  (∃ evs, after_update cfg w r1 = (evs ++ [Slept cfg.(scrape_interval)], Ok false)
          ∧ count is_updated evs = 0 ∧ count is_slept evs = 0)
  ∨ (∃ evs e, after_update cfg w r1 = (evs, Raise e)
              ∧ count is_updated evs = 0 ∧ count is_slept evs = 0).
Proof.
  intros Hmode Hsleep. unfold after_update.
  apply String.eqb_neq in Hmode. rewrite Hmode, Hsleep.
  destruct (writes_file cfg).
  - destruct (write_to_textfile w (metrics_file cfg)) as [[] | e].
    + left. by exists [Written (metrics_file cfg) r1].
    + right. by exists [WriteFailed (metrics_file cfg) e], e.
  - left. by exists [].
Qed.

(** Whatever holds of the registry and is kept by a cycle holds after a
    run. *)
Lemma while_true_invariant (P : registry → Prop) fuel cfg ws i r :
  (∀ w r, P r → P (update_metrics cfg w r)) →
  P r → P (registry_of (while_true fuel cfg ws i r)).
Proof.
  intros Hcycle. revert i r. induction fuel as [|fuel IH]; intros i r Hr; [done|].
  rewrite while_true_step. cbn zeta.
  destruct (after_update cfg (ws i) _) as [evs [[] | e]].
  - cbn. by apply Hcycle.
  - rewrite registry_prepend. by apply IH, Hcycle.
  - destruct (time_sleep _).
    + rewrite registry_prepend. by apply IH, Hcycle.
    + cbn. by apply Hcycle.
Qed.

Lemma status_zero_or_one_cycle cfg w r :
  zero_or_one (status r) → zero_or_one (status (update_metrics cfg w r)).
Proof.
  intros H. unfold update_metrics. rewrite update_metrics_try_cases.
  destruct (parse (run_bin w (awg_show_command cfg))) as [peers | e]; [|done].
  destruct (is_nil peers); [by left|].
  pose proof (keeps_status_for_each (set_peer_gauges (clients_table_of cfg w))
                peers (keeps_status_set_peer_gauges _) r) as Hs.
  destruct (for_each _ peers r) as [r' [[] | e]]; cbn in *; [by right|].
  by rewrite Hs.
Qed.

Lemma while_true_no_server_event fuel cfg ws i r :
  count is_server_event (events_of (while_true fuel cfg ws i r)) = 0.
Proof.
  revert i r. induction fuel as [|fuel IH]; intros i r; [done|].
  rewrite while_true_step. cbn zeta. unfold after_update.
  destruct (writes_file cfg);
    [destruct (write_to_textfile (ws i) (metrics_file cfg)) as [[] | e]|];
    destruct (String.eqb (ops_mode cfg) "oneshot");
    destruct (time_sleep (scrape_interval cfg)) as [[] | e'];
    rewrite ?events_prepend; cbn; rewrite ?count_app, ?IH; done.
Qed.

Lemma while_true_no_file_event fuel cfg ws i r :
  writes_file cfg = false →
  count is_file_event (events_of (while_true fuel cfg ws i r)) = 0.
Proof.
  intros Hw. revert i r. induction fuel as [|fuel IH]; intros i r; [done|].
  rewrite while_true_step. cbn zeta. unfold after_update. rewrite Hw.
  destruct (String.eqb (ops_mode cfg) "oneshot");
    destruct (time_sleep (scrape_interval cfg)) as [[] | e'];
    rewrite ?events_prepend; cbn; rewrite ?count_app, ?IH; done.
Qed.

Lemma cycles_succ cfg ws i n r :
  cycles cfg ws i (S n) r = cycles cfg ws (S i) n (update_metrics cfg (ws i) r).
Proof. reflexivity. Qed.

End LoopFacts.

(** X15: when the scrape interval comes from the environment it is a
    string, and [time.sleep] refuses it: unless the run ends by the [break]
    of the mode [oneshot], the sleep of the first iteration raises
    [TypeError], in the body or in the handler, and the handler's own sleep
    lets it out of [main_loop] after one cycle and no sleep. *)
Theorem string_interval_ends_loop fuel cfg ws i r s :
  cfg.(scrape_interval) = CStr s →
  cfg.(ops_mode) ≠ "oneshot" →
  let run := while_true (S fuel) cfg ws i r in
  ending_of run = Uncaught TypeError ∧
  registry_of run = update_metrics cfg (ws i) r ∧
  count is_updated (events_of run) = 1 ∧
  count is_slept (events_of run) = 0.
Proof.
  intros Hs Hmode run. subst run. rewrite while_true_step. cbn zeta.
  unfold after_update. apply String.eqb_neq in Hmode. rewrite Hmode, Hs.
  cbn [time_sleep].
  destruct (writes_file cfg); [|done].
  by destruct (write_to_textfile (ws i) (metrics_file cfg)) as [[] | e].
Qed.

Lemma string_interval_ends_loop_witness :
  ending_of (while_true 5 (exporter_config (interval_env "30"))
               (fun _ => world_of one_peer_report (Raise OSError) (Ok tt)) 0
               empty_registry)
  = Uncaught TypeError.
Proof.
  apply (string_interval_ends_loop 4 (exporter_config (interval_env "30"))
           (fun _ => world_of one_peer_report (Raise OSError) (Ok tt)) 0
           empty_registry "30").
  - reflexivity.
  - discriminate.
Defined.

(** X16: in a mode other than [oneshot] and with an interval [time.sleep]
    accepts, the loop does not end by itself: after any number of iterations
    it is still running, it has run one cycle and slept once per iteration
    (also when the write of the metrics file raised), and the registry is
    what the cycles alone made of it. *)
Theorem steady_loop fuel cfg ws i r :
  cfg.(ops_mode) ≠ "oneshot" →
  time_sleep cfg.(scrape_interval) = Ok tt →
  let run := while_true fuel cfg ws i r in
  ending_of run = StillRunning ∧
  registry_of run = cycles cfg ws i fuel r ∧
  count is_updated (events_of run) = fuel ∧
  count is_slept (events_of run) = fuel.
Proof.
  intros Hmode Hsleep. cbn zeta. revert i r.
  induction fuel as [|fuel IH]; intros i r; [done|].
  rewrite while_true_step, cycles_succ. cbn zeta.
  set (r1 := update_metrics cfg (ws i) r).
  destruct (IH (S i) r1) as (He & Hr & Hu & Hsl).
  destruct (after_update_steady cfg (ws i) r1 Hmode Hsleep)
    as [(evs & -> & Hu0 & Hs0) | (evs & e & -> & Hu0 & Hs0)].
  - rewrite ending_prepend, registry_prepend, events_prepend.
    cbn [app count is_updated]. rewrite !count_app. cbn [count is_updated is_slept].
    rewrite Hu, Hsl, Hu0, Hs0. repeat split; try done; lia.
  - rewrite Hsleep.
    rewrite ending_prepend, registry_prepend, events_prepend.
    cbn [app count is_updated]. rewrite !count_app. cbn [count is_updated is_slept].
    rewrite Hu, Hsl, Hu0, Hs0. repeat split; try done; lia.
Qed.

Lemma steady_loop_witness :
  let ws := fun i => match i with
                     | 1 => world_of one_peer_report (Raise OSError) (Raise OSError)
                     | _ => world_of one_peer_report (Raise OSError) (Ok tt)
                     end in
  let run := while_true 3 (exporter_config metricsfile_env) ws 0 empty_registry in
  ending_of run = StillRunning ∧ count is_slept (events_of run) = 3.
Proof.
  intros ws run.
  destruct (steady_loop 3 (exporter_config metricsfile_env) ws 0 empty_registry)
    as (He & _ & _ & Hs).
  - discriminate.
  - reflexivity.
  - split; [exact He | exact Hs].
Defined.



(** X18: the metrics file is touched in the modes [metricsfile] and
    [oneshot] only, and the HTTP server is started in the mode [http] only:
    in any other mode, whatever its name, a run is cycles and sleeps and
    nothing else. *)
Theorem mode_effects fuel cfg http ws r :
  (writes_file cfg = false →
   count is_file_event (events_of (main_loop fuel cfg http ws r)) = 0) ∧
  (cfg.(ops_mode) ≠ "http" →
   count is_server_event (events_of (main_loop fuel cfg http ws r)) = 0).
Proof.
  split.
  - intros Hw. unfold main_loop.
    destruct (String.eqb (ops_mode cfg) "http");
      [|by apply while_true_no_file_event].
    destruct http as [[] | e]; [|done].
    rewrite events_prepend. cbn. by apply while_true_no_file_event.
  - intros Hmode. unfold main_loop. apply String.eqb_neq in Hmode. rewrite Hmode.
    apply while_true_no_server_event.
Qed.

Lemma mode_effects_witness :
  count is_file_event
    (events_of (main_loop 3 default_config (Ok tt)
                  (fun _ => world_of one_peer_report (Raise OSError) (Ok tt))
                  empty_registry)) = 0 ∧
  count is_server_event
    (events_of (main_loop 3 (exporter_config metricsfile_env) (Ok tt)
                  (fun _ => world_of one_peer_report (Raise OSError) (Ok tt))
                  empty_registry)) = 0.
Proof.
  split.
  - apply (proj1 (mode_effects 3 default_config (Ok tt) _ empty_registry)). reflexivity.
  - apply (proj2 (mode_effects 3 (exporter_config metricsfile_env) (Ok tt) _
                    empty_registry)).
    discriminate.
Defined.

(** X19: through a whole run of [main_loop], in every mode and however it
    ends, the status gauge holds 0 or 1 if it did at the start (as it does
    in the registry [__init__] builds), and no child is removed. *)
Theorem run_keeps_status_and_children fuel cfg http ws r :
  let r' := registry_of (main_loop fuel cfg http ws r) in
  (zero_or_one (status r) → zero_or_one (status r')) ∧
  (∀ g k, is_Some (children g r !! k) → is_Some (children g r' !! k)).
Proof.
  cbn zeta.
  assert (∀ P : registry → Prop,
            (∀ w r, P r → P (update_metrics cfg w r)) → P r →
            P (registry_of (main_loop fuel cfg http ws r))) as Hinv.
  { intros P HP Hr. unfold main_loop.
    destruct (String.eqb (ops_mode cfg) "http");
      [destruct http as [[] | e]; [rewrite registry_prepend|done]|];
      by apply while_true_invariant. }
  split.
  - apply (Hinv (fun r => zero_or_one (status r))).
    intros w r0. apply status_zero_or_one_cycle.
  - intros g k. apply (Hinv (fun r => is_Some (children g r !! k))).
    intros w r0 [v Hv].
    destruct (uniform_update_metrics_try (fun _ => True) cfg w) as (os & x & _ & E);
      [done|].
    unfold update_metrics. rewrite E. cbn.
    destruct (apply_writes_cell os g k) as (f & Hf & Ef). rewrite Ef, Hv.
    destruct Hf as [Hf | [Hf | [y Hf]]]; rewrite Hf; eauto.
Qed.

Lemma run_keeps_status_and_children_witness :
  let ws := fun _ : nat => world_of one_peer_report (Raise OSError) (Ok tt) in
  let r := store_peer ("P9", "gone") (PyFloat.of_nat 1) (PyFloat.of_nat 2)
             (PyFloat.of_nat 3) empty_registry in
  let r' := registry_of (main_loop 3 default_config (Ok tt) ws r) in
  zero_or_one (status r') ∧ is_Some (children SentBytes r' !! ("P9", "gone")).
Proof.
  intros ws r r'. split.
  - apply (proj1 (run_keeps_status_and_children 3 default_config (Ok tt) ws r)).
    left. reflexivity.
  - apply (proj2 (run_keeps_status_and_children 3 default_config (Ok tt) ws r)).
    exists (PyFloat.of_nat 1). vm_compute. reflexivity.
Defined.

(** ** The scan of the table, record by record *)

Section ScanFacts.

Lemma next_client_name_skip before rest peer_id :
  Forall (fun c => ∃ cid, PyVal.getitem c "clientId" = Ok cid
                          ∧ PyVal.eq_str cid peer_id = false) before →
  next_client_name (before ++ rest) peer_id = next_client_name rest peer_id.
Proof.
  induction 1 as [|c before (cid & Hc & Hne) _ IH]; [done|].
  cbn [app next_client_name]. rewrite Hc. cbn. by rewrite Hne.
Qed.

Lemma set_peer_gauges_not_ready table p r :
  ¬ peer_ready table p → ∃ e, snd (set_peer_gauges table p r) = Raise e.
Proof.
  intros Hn. destruct (set_peer_gauges table p r) as [r' [[] | e]] eqn:E.
  - exfalso. apply Hn. by eapply set_peer_gauges_ready.
  - by exists e.
Qed.

Lemma for_each_stops table before p after r :
  ¬ peer_ready table p →
  ∃ e, snd (for_each (set_peer_gauges table) (before ++ p :: after) r) = Raise e ∧
       fst (for_each (set_peer_gauges table) (before ++ p :: after) r)
       = fst (for_each (set_peer_gauges table) (before ++ [p]) r).
Proof.
  intros Hn. rewrite !for_each_app.
  destruct (for_each (set_peer_gauges table) before r) as [r1 [[] | e]]; [|by exists e].
  cbn [for_each]. unfold mbind, cycle_bind.
  destruct (set_peer_gauges_not_ready table p r1 Hn) as [e He].
  destruct (set_peer_gauges table p r1) as [r2 [[] | e']]; [done|].
  by exists e'.
Qed.

End ScanFacts.

(** X20: the scan of the table stops at the first item whose ["clientId"]
    is the peer id: the answer is that item's [userData.clientName], whatever
    JSON value it is, or the exception its lookup raises; the items after it
    are not looked at, and of the items before it only ["clientId"] is. *)
Theorem scan_stops_at_first_match before client after peer_id cid :
  Forall (fun c => ∃ cid', PyVal.getitem c "clientId" = Ok cid'
                           ∧ PyVal.eq_str cid' peer_id = false) before →
  PyVal.getitem client "clientId" = Ok cid →
  PyVal.eq_str cid peer_id = true →
  resolve_client_name (JArr (before ++ client :: after)) peer_id
  = (user_data ← PyVal.getitem client "userData";
     PyVal.getitem user_data "clientName").
Proof.
  intros Hb Hc Heq. unfold resolve_client_name. cbn [PyVal.iter].
  change (mbind ?f (Ok ?x)) with (f x). cbn beta.
  rewrite next_client_name_skip by done.
  cbn [next_client_name]. rewrite Hc. cbn. by rewrite Heq.
Qed.

Lemma scan_stops_at_first_match_witness :
  resolve_client_name
    (JArr ([JObj [("clientId", JStr "P2")]]
           ++ JObj [("clientId", JStr "P1"); ("userData", JObj [("clientName", JNum "7")])]
           :: [JNull; JStr "not an entry"])) "P1"
  = Ok (JNum "7").
Proof.
  apply (scan_stops_at_first_match [JObj [("clientId", JStr "P2")]]
           (JObj [("clientId", JStr "P1"); ("userData", JObj [("clientName", JNum "7")])])
           [JNull; JStr "not an entry"] "P1" (JStr "P1")).
  - constructor; [|constructor]. exists (JStr "P2"). split; reflexivity.
  - reflexivity.
  - reflexivity.
Defined.

(** X21: a record that is not ready (its id does not resolve, or one of its
    numbers is no float) ends the cycle in [except] and hides the records
    after it: the peers that come only after it in the report get no gauge
    written. *)
Theorem bad_record_hides_later_ones cfg w r before p after :
  parse (run_bin w (awg_show_command cfg)) = Ok (before ++ p :: after) →
  ¬ peer_ready (clients_table_of cfg w) p →
  update_metrics_caught cfg w r ≠ None ∧
  ∀ g k,
    Forall (fun q => q.(peer) ≠ k.1) (before ++ [p]) →
    children g (update_metrics cfg w r) !! k = children g r !! k.
Proof.
  intros Hp Hn. unfold update_metrics, update_metrics_caught.
  rewrite update_metrics_try_cases, Hp.
  replace (is_nil (before ++ p :: after)) with false by by destruct before.
  destruct (for_each_stops (clients_table_of cfg w) before p after r Hn) as (e & He & Hr).
  destruct (for_each _ (before ++ p :: after) r) as [r' res]. cbn in He, Hr.
  subst res. split; [done|]. intros g k Hk. cbn [fst]. rewrite Hr.
  by apply for_each_frame.
Qed.

Lemma bad_record_hides_later_ones_witness :
  let w := world_of (bad_second_peer_report +:+ nl +:+ "bla P3 x x x 7 1 2")
             (Raise OSError) (Ok tt) in
  children SentBytes (update_metrics default_config w empty_registry)
    !! ("P3", "unidentified")
  = children SentBytes empty_registry !! ("P3", "unidentified").
Proof.
  intros w.
  pose (p1 := {| peer := "P1"; latest_handshake := "5"; received := "100"; sent := "200" |}).
  pose (p2 := {| peer := "P2"; latest_handshake := "6"; received := "300"; sent := "abc" |}).
  pose (p3 := {| peer := "P3"; latest_handshake := "7"; received := "1"; sent := "2" |}).
  apply (proj2 (bad_record_hides_later_ones default_config w empty_registry [p1] p2 [p3]
                  ltac:(vm_compute; reflexivity)
                  ltac:(intros [_ (xs & xr & xh & H & _)]; vm_compute in H; discriminate H))
           SentBytes ("P3", "unidentified")).
  constructor; [cbn; discriminate|]. constructor; [cbn; discriminate|]. constructor.
Defined.

(** ** Loggers *)

Section LoggerFacts.

Lemma handlers_of_MyLogger name lg :
  handlers_of name (MyLogger name lg)
  = handlers_of name lg
    ++ [ {| handler_stream := Stdout; handler_level := INFO |};
         {| handler_stream := Stderr; handler_level := ERROR |} ].
Proof.
  unfold MyLogger. generalize (handlers_of name lg). intros hs.
  unfold handlers_of. by rewrite lookup_insert_eq.
Qed.

Lemma handlers_after_calls n lg :
  handlers_of "AwgShowWrapper" (after_calls n lg)
  = handlers_of "AwgShowWrapper" lg
    ++ concat (replicate n [ {| handler_stream := Stdout; handler_level := INFO |};
                             {| handler_stream := Stderr; handler_level := ERROR |} ]).
Proof.
  induction n as [|n IH]; cbn [after_calls replicate concat].
  - by rewrite app_nil_r.
  - unfold run_bin_logger. rewrite handlers_of_MyLogger, IH.
    rewrite <- app_assoc. f_equal.
    clear. induction n as [|n IH]; [done|].
    cbn [replicate concat]. rewrite <- !app_assoc. by rewrite IH.
Qed.

Lemma after_calls_other n lg name :
  name ≠ "AwgShowWrapper" → after_calls n lg !! name = lg !! name.
Proof.
  intros Hne. induction n as [|n IH]; [done|].
  cbn [after_calls]. unfold run_bin_logger, MyLogger.
  by rewrite lookup_insert_ne.
Qed.

Lemma filter_pairs lvl n :
  length (List.filter (lets_through lvl)
            (concat (replicate n [ {| handler_stream := Stdout; handler_level := INFO |};
                                   {| handler_stream := Stderr; handler_level := ERROR |} ])))
  = match lvl with INFO => n | ERROR => 2 * n end.
Proof.
  induction n as [|n IH]; [by destruct lvl|].
  cbn [replicate concat]. rewrite List.filter_app, length_app, IH.
  destruct lvl; cbn; lia.
Qed.

End LoggerFacts.

(** X22: every call of [run_bin] builds a [MyLogger] on the one logger
    named ['AwgShowWrapper'], so each call adds two handlers to it: starting
    with no handler, an error message of the [n]-th call is written [2 n]
    times (once by each handler), and the loggers of the other names are left
    alone. *)
Theorem run_bin_handlers_pile_up n :
  length (handlers_of "AwgShowWrapper" (after_calls n ∅)) = 2 * n ∧
  length (emit "AwgShowWrapper" ERROR (after_calls n ∅)) = 2 * n ∧
  length (emit "AwgShowWrapper" INFO (after_calls n ∅)) = n ∧
  ∀ name, name ≠ "AwgShowWrapper" → handlers_of name (after_calls n ∅) = [].
Proof.
  unfold emit. rewrite length_map, !handlers_after_calls.
  unfold handlers_of at 1 2 3. rewrite lookup_empty. cbn [default app].
  rewrite length_map, !filter_pairs. split; [|split; [done|split; [done|]]].
  - clear. induction n as [|n IH]; [done|].
    cbn [replicate concat]. rewrite length_app, IH. cbn. lia.
  - intros name Hne. unfold handlers_of. by rewrite after_calls_other, lookup_empty.
Qed.

Lemma run_bin_handlers_pile_up_witness :
  handlers_of "Exporter" (after_calls 3 ∅) = [].
Proof.
  apply (proj2 (proj2 (proj2 (run_bin_handlers_pile_up 3))) "Exporter"). discriminate.
Defined.

Example emit_after_three_calls :
  emit "AwgShowWrapper" ERROR (after_calls 3 ∅)
  = [Stdout; Stderr; Stdout; Stderr; Stdout; Stderr].
Proof. vm_compute. reflexivity. Qed.

(** ** The start-up log *)

(** X23: [__main__] logs the path of the metrics file in the mode
    [metricsfile] only, though [main_loop] writes the file in the mode
    [oneshot] too: the modes in which the file is written without its path in
    the log are exactly [oneshot].  The seven other options are always
    logged. *)
Theorem logged_metrics_file cfg :
  (In "metrics_file" (logged_keys cfg) ↔ cfg.(ops_mode) = "metricsfile") ∧
  (writes_file cfg = true ∧ ¬ In "metrics_file" (logged_keys cfg)
   ↔ cfg.(ops_mode) = "oneshot") ∧
  (∀ key, In key config_keys → key ≠ "metrics_file" → In key (logged_keys cfg)).
Proof.
  unfold logged_keys, writes_file.
  set (keep := fun key => negb (String.eqb key "metrics_file"
                                && negb (String.eqb cfg.(ops_mode) "metricsfile"))).
  assert (keep "metrics_file" = String.eqb cfg.(ops_mode) "metricsfile") as Hk.
  { unfold keep. rewrite String.eqb_refl. cbn [andb]. apply negb_involutive. }
  assert (In "metrics_file" (List.filter keep config_keys)
          ↔ ops_mode cfg = "metricsfile") as Hm.
  { rewrite List.filter_In, Hk, String.eqb_eq.
    split; [by intros [_ H]|]. intros H. split; [|done].
    unfold config_keys. cbn [In]. tauto. }
  split; [exact Hm|]. split.
  - rewrite Hm. split.
    + intros [Hw Hn]. apply orb_true_iff in Hw as [Hw | Hw];
        apply String.eqb_eq in Hw; [done|done].
    + intros ->. split; [reflexivity | discriminate].
  - intros key Hin Hne. apply List.filter_In. split; [done|].
    unfold keep. apply String.eqb_neq in Hne. by rewrite Hne.
Qed.

Lemma logged_metrics_file_witness :
  In "ops_mode" (logged_keys (exporter_config oneshot_env)) ∧
  ¬ In "metrics_file" (logged_keys (exporter_config oneshot_env)).
Proof.
  split.
  - apply (proj2 (proj2 (logged_metrics_file (exporter_config oneshot_env)))).
    + cbn. tauto.
    + discriminate.
  - apply (proj2 (proj2 (proj1 (proj2 (logged_metrics_file (exporter_config oneshot_env))))
                    eq_refl)).
Defined.
